(** * URL shortener backend: registry and resolution over the [urls] table

    A shallow embedding of [urlService.js] (createShortUrl,
    getUrlByShortCode, incrementClickCount, getUrlStats), of the route
    handlers of [server.js] that call them, and of the [urls] table that
    [database.js] creates.

    Modelling conventions.
    - A JavaScript string is the list of its UTF-16 code units.
    - Instants are milliseconds since the epoch, as [Date.prototype.getTime]
      gives them. A DATETIME column holds the years 1753 to 9999 in ticks of
      1/300 s: an instant bound to [sql.DateTime] outside that range is
      refused, one inside is stored rounded to the tick, and read back to
      the millisecond as .000, .003 or .007. The wall clock of a host reads an
      instant that the column can hold.
    - The [urls] table is the list of its rows in insertion order; the
      PRIMARY KEY on [short_code] is enforced by INSERT, [click_count] is a
      32-bit INT whose increment fails on overflow, and [=] on strings is
      equality of code units.
    - A request is answered or rejected by the table alone (primary-key
      violation, INT overflow, a date refused as a parameter);
      connection failures and timeouts are outside the model.
    - An [async] function is a tree of awaited queries, so that the same
      definition is run serially ([run]) or interleaved with another request
      at its await points ([interleave]).
    - What one invocation reads from its host (the clock, [Date.parse],
      [shortid.generate], the URL parser, BASE_URL) is a [Host] record. *)

From Stdlib Require Import List ZArith NArith QArith Bool Lia String Ascii.
Import ListNotations.
Local Open Scope Z_scope.

(* ================================================================== *)
(** ** JavaScript values *)

Definition jsstring := list N.

(** A string literal with ASCII characters only, as code units. *)
Definition str (s : string) : jsstring :=
  map N_of_ascii (list_ascii_of_string s).

Fixpoint str_eqb (a b : jsstring) : bool :=
  match a, b with
  | [], [] => true
  | x :: a', y :: b' => N.eqb x y && str_eqb a' b'
  | _, _ => false
  end.

(** WhiteSpace and LineTerminator code points of ECMAScript, the characters
    [String.prototype.trim] strips. *)
Definition isWhiteSpace (c : N) : bool :=
  existsb (N.eqb c)
    [ 9; 10; 11; 12; 13; 32; 160; 5760;
      8192; 8193; 8194; 8195; 8196; 8197; 8198; 8199; 8200; 8201; 8202;
      8232; 8233; 8239; 8287; 12288; 65279 ]%N.

Fixpoint trimStart (s : jsstring) : jsstring :=
  match s with
  | [] => []
  | c :: s' => if isWhiteSpace c then trimStart s' else s
  end.

Definition trimEnd (s : jsstring) : jsstring := rev (trimStart (rev s)).

Definition trim (s : jsstring) : jsstring := trimEnd (trimStart s).

(** Number values: the finite ones as the rational they denote (both zeros
    are the rational 0), and the three non-finite ones. *)
Inductive jsnumber :=
| NaN
| Infinity (negative : bool)
| Finite (q : Q).

(** The primitive values a JSON body or a direct caller can pass where a
    timestamp or a URL is expected. *)
Inductive jsval :=
| JSUndefined
| JSNull
| JSBool (b : bool)
| JSNumber (n : jsnumber)
| JSString (s : jsstring).

(** ToBoolean. *)
Definition truthy (v : jsval) : bool :=
  match v with
  | JSUndefined | JSNull => false
  | JSBool b => b
  | JSNumber NaN => false
  | JSNumber (Infinity _) => true
  | JSNumber (Finite q) => negb (Qnum q =? 0)
  | JSString s => match s with [] => false | _ => true end
  end.

(** [a || b]. *)
Definition js_or (a b : jsval) : jsval := if truthy a then a else b.

(** A Date object: a time value, or Invalid Date. *)
Inductive Date :=
| ValidDate (t : Z)
| InvalidDate.

(** TimeClip of a Number. *)
Definition TimeClip (n : jsnumber) : Date :=
  match n with
  | Finite q =>
      let t := Z.quot (Qnum q) (Z.pos (Qden q)) in
      if Z.abs t <=? 8640000000000000 then ValidDate t else InvalidDate
  | _ => InvalidDate
  end.

(** The first and the last instant of a DATETIME column:
    1753-01-01T00:00:00.000Z and 9999-12-31T23:59:59.997Z. *)
Definition DATETIME_MIN : Z := -6847804800000.
Definition DATETIME_MAX : Z := 253402300799997.

(** An instant as a DATETIME column gives it back: the milliseconds of the
    day go to the nearest 1/300 s (halves up), and the ticks come back to
    the nearest millisecond. *)
Definition DATETIME_round (t : Z) : Z :=
  let ticks := (3 * (t mod 86400000) + 5) / 10 in
  (t / 86400000) * 86400000 + (20 * ticks + 3) / 6.

(** The instants that a [sql.DateTime] parameter may carry: not before
    1753, and not rounding past the last instant of 9999. *)
Definition DATETIME_accepts (t : Z) : bool :=
  (DATETIME_MIN <=? t) && (DATETIME_round t <=? DATETIME_MAX).

(** What one invocation obtains from its host. [shortid_generate k] is the
    value of the (k+1)-th call of [shortid.generate()] in the invocation. *)
Record Host := {
  Date_now : Z;
  clock_in_range : DATETIME_accepts Date_now = true;
  Date_parse : jsstring -> option Z;
  shortid_generate : nat -> jsstring;
  URL_parses : jsstring -> bool;
  BASE_URL : jsstring
}.

(** [new Date(v)]. *)
Definition new_Date (h : Host) (v : jsval) : Date :=
  match v with
  | JSUndefined => InvalidDate
  | JSNull => ValidDate 0
  | JSBool b => ValidDate (if b then 1 else 0)
  | JSNumber n => TimeClip n
  | JSString s =>
      match Date_parse h s with
      | Some t => ValidDate t
      | None => InvalidDate
      end
  end.

(* ================================================================== *)
(** ** The urls table *)

(** CREATE TABLE urls (short_code NVARCHAR(50) PRIMARY KEY,
    original_url NVARCHAR(MAX) NOT NULL, click_count INT DEFAULT 0,
    created_at DATETIME DEFAULT GETUTCDATE(), expires_at DATETIME NULL) *)
Record Row := {
  short_code : jsstring;
  original_url : jsstring;
  click_count : Z;
  created_at : Z;
  expires_at : option Z
}.

Definition table := list Row.

Definition INT_MAX : Z := 2147483647.

Inductive RequestError :=
| PrimaryKeyViolation      (* error 2627 on INSERT *)
| ArithmeticOverflow       (* error 8115 on click_count + 1 *)
| InvalidParameter.        (* an Invalid Date, or a date out of range *)

(** The four statements the service sends, indexed by the type of what a
    successful request yields. *)
Inductive query : Type -> Type :=
| SelectShortCodeByUrl (url : jsstring) : query (list jsstring)
| SelectAllByCode (code : jsstring) : query (list Row)
| InsertUrl (code url : jsstring) (created : Date) (expires : option Date)
    : query unit
| UpdateClickCount (code : jsstring) : query unit.

Definition has_url (url : jsstring) (r : Row) : bool :=
  str_eqb (original_url r) url.

Definition has_code (code : jsstring) (r : Row) : bool :=
  str_eqb (short_code r) code.

(** SET click_count = click_count + 1 *)
Definition clicked (r : Row) : Row :=
  {| short_code := short_code r; original_url := original_url r;
     click_count := click_count r + 1; created_at := created_at r;
     expires_at := expires_at r |}.

Definition bump (code : jsstring) (r : Row) : Row :=
  if has_code code r then clicked r else r.

Definition overflows (code : jsstring) (r : Row) : bool :=
  has_code code r && (INT_MAX <? click_count r + 1).

(** Whether a value bound to [sql.DateTime] is taken: null is, a Date is
    when it is valid and within the range of the column. *)
Definition DateTime_param_ok (d : option Date) : bool :=
  match d with
  | None => true
  | Some (ValidDate t) => DATETIME_accepts t
  | Some InvalidDate => false
  end.

(** INSERT INTO urls (short_code, original_url, created_at, expires_at):
    the parameters are checked first, then the primary key; [click_count]
    takes its default and the two instants are stored as DATETIME. *)
Definition insert_row (code url : jsstring) (created : Date)
    (expires : option Date) (db : table) : (RequestError + unit) * table :=
  if negb (DateTime_param_ok (Some created) && DateTime_param_ok expires)
  then (inl InvalidParameter, db)
  else if existsb (has_code code) db then (inl PrimaryKeyViolation, db)
  else (inr tt,
        db ++ [ {| short_code := code; original_url := url;
                   click_count := 0;
                   created_at := match created with
                                 | ValidDate c => DATETIME_round c
                                 | InvalidDate => 0
                                 end;
                   expires_at := match expires with
                                 | Some (ValidDate t) => Some (DATETIME_round t)
                                 | _ => None
                                 end |} ]).

Definition exec {R} (q : query R) (db : table) : (RequestError + R) * table :=
  match q in query T return (RequestError + T) * table with
  | SelectShortCodeByUrl url =>
      (inr (map short_code (firstn 1 (filter (has_url url) db))), db)
  | SelectAllByCode code =>
      (inr (filter (has_code code) db), db)
  | InsertUrl code url created expires =>
      insert_row code url created expires db
  | UpdateClickCount code =>
      if existsb (overflows code) db then (inl ArithmeticOverflow, db)
      else (inr tt, map (bump code) db)
  end.

(** The PRIMARY KEY constraint: no two rows share a short code. *)
Fixpoint primary_key (db : table) : bool :=
  match db with
  | [] => true
  | r :: db' => negb (existsb (has_code (short_code r)) db') && primary_key db'
  end.

(** How many rows hold a given URL. *)
Definition count_url (url : jsstring) (db : table) : nat :=
  List.length (filter (has_url url) db).

(* ================================================================== *)
(** ** Asynchronous computations *)

Inductive status_tag := not_found | expired.

(** What the service throws: the two ad hoc status objects, a plain
    [Error], or the error of a rejected request. *)
Inductive thrown :=
| NotFoundStatus                    (* { status: 'not_found', message } *)
| ExpiredStatus (expires_at : Z)    (* { status: 'expired', message, expires_at } *)
| ErrorNotFound                     (* new Error('Not found') *)
| TypeError                         (* [url.trim] is not a function *)
| StoreError (e : RequestError).

(** [err.status]. *)
Definition status (e : thrown) : option status_tag :=
  match e with
  | NotFoundStatus => Some not_found
  | ExpiredStatus _ => Some expired
  | _ => None
  end.

Inductive async (A : Type) : Type :=
| Resolve (a : A)
| Reject (e : thrown)
| Await (R : Type) (q : query R) (k : RequestError + R -> async A).

Arguments Resolve {A} a.
Arguments Reject {A} e.
Arguments Await {A R} q k.

Fixpoint bind {A B} (p : async A) (f : A -> async B) : async B :=
  match p with
  | Resolve a => f a
  | Reject e => Reject e
  | Await q k => Await q (fun r => bind (k r) f)
  end.

(** [try { p } catch (err) { h err }]. *)
Fixpoint try_catch {A} (p : async A) (h : thrown -> async A) : async A :=
  match p with
  | Resolve a => Resolve a
  | Reject e => h e
  | Await q k => Await q (fun r => try_catch (k r) h)
  end.

(** [await pool.request()....query(q)]: a rejected request throws. *)
Definition await {R} (q : query R) : async R :=
  Await q (fun r => match r with
                    | inl e => Reject (StoreError e)
                    | inr v => Resolve v
                    end).

Notation "x <- p ;; k" := (bind p (fun x => k))
  (at level 61, p at next level, right associativity).

Inductive settled (A : Type) : Type :=
| Fulfilled (a : A)
| Rejected (e : thrown).

Arguments Fulfilled {A} a.
Arguments Rejected {A} e.

(** Serial execution: every awaited query is answered by the table before
    anything else touches it. *)
Fixpoint run {A} (p : async A) (db : table) : settled A * table :=
  match p with
  | Resolve a => (Fulfilled a, db)
  | Reject e => (Rejected e, db)
  | Await q k => let '(r, db') := exec q db in run (k r) db'
  end.

(** One turn of the event loop for a pending computation: its awaited
    query is answered and it continues to its next await. *)
Definition step {A} (p : async A) (db : table) : async A * table :=
  match p with
  | Await q k => let '(r, db') := exec q db in (k r, db')
  | _ => (p, db)
  end.

Inductive turn := First | Second.

(** Two requests in flight: the schedule says whose awaited query the
    store answers next; when it ends the first request finishes, then the
    second. *)
Fixpoint interleave {A B} (sched : list turn) (p : async A) (q : async B)
    (db : table) : settled A * settled B * table :=
  match sched with
  | [] =>
      let '(a, db1) := run p db in
      let '(b, db2) := run q db1 in
      (a, b, db2)
  | First :: s => let '(p', db') := step p db in interleave s p' q db'
  | Second :: s => let '(q', db') := step q db in interleave s p q' db'
  end.

(* ================================================================== *)
(** ** urlService.js *)

(** [expiresAt ? new Date(expiresAt) : null], the value bound to
    [@expires_at]. *)
Definition expires_param (h : Host) (expiresAt : jsval) : option Date :=
  if truthy expiresAt then Some (new_Date h expiresAt) else None.

(** [createShortUrl(originalUrl, expiresAt = null)] *)
Definition createShortUrl (h : Host) (originalUrl : jsstring)
    (expiresAt : jsval) : async jsstring :=
  let expiresAt := match expiresAt with JSUndefined => JSNull | v => v end in
  try_catch
    (let trimmedUrl := trim originalUrl in
     checkResult <- await (SelectShortCodeByUrl trimmedUrl) ;;
     match checkResult with
     | existingShortCode :: _ => Resolve existingShortCode
     | [] =>
         let shortCode := shortid_generate h 0 in
         _ <- await (InsertUrl shortCode trimmedUrl
                       (ValidDate (Date_now h))
                       (expires_param h expiresAt)) ;;
         Resolve shortCode
     end)
    (fun err => Reject err).

(** [getUrlByShortCode(shortCode)] *)
Definition getUrlByShortCode (h : Host) (shortCode : jsstring) : async Row :=
  try_catch
    (result <- await (SelectAllByCode shortCode) ;;
     match result with
     | [] => Reject NotFoundStatus
     | row :: _ =>
         match expires_at row with
         | Some expiryTime =>
             let currentTime := Date_now h in
             if currentTime >? expiryTime
             then Reject (ExpiredStatus expiryTime)
             else Resolve row
         | None => Resolve row
         end
     end)
    (fun err => match status err with
                | Some _ => Reject err
                | None => Reject err
                end).

(** [incrementClickCount(shortCode)] *)
Definition incrementClickCount (shortCode : jsstring) : async unit :=
  try_catch (await (UpdateClickCount shortCode)) (fun err => Reject err).

(** [getUrlStats(shortCode)] *)
Definition getUrlStats (shortCode : jsstring) : async Row :=
  try_catch
    (result <- await (SelectAllByCode shortCode) ;;
     match result with
     | [] => Reject ErrorNotFound
     | row :: _ => Resolve row
     end)
    (fun err => Reject err).

(* ================================================================== *)
(** ** server.js *)

Inductive response :=
| Json200Shorten (short_url short_code : jsstring)
| Json400InvalidUrl
| Json500FailedToShorten
| Json200Stats (stats : Row)
| Json404NotFound
| Redirect302 (location : jsstring)
| Html410Expired (expires_at : Z)
| Html404NotFound.

(** [isValidUrl(string)] *)
Definition isValidUrl (h : Host) (s : jsstring) : bool := URL_parses h s.

(** POST /api/shorten, for the [url] and [expires_at] fields of the body.
    [url ? url.trim() : null] stands before the [try]: for a truthy value
    that is not a string the call of [trim] throws out of the handler. *)
Definition post_api_shorten (h : Host) (url : jsval) (expires_at : jsval)
  : async response :=
  if truthy url
  then
    match url with
    | JSString s =>
        let url := trim s in
        if negb (truthy (JSString url)) || negb (isValidUrl h url)
        then Resolve Json400InvalidUrl
        else
          try_catch
            (shortCode <- createShortUrl h url (js_or expires_at JSNull) ;;
             let shortUrl := BASE_URL h ++ str "/" ++ shortCode in
             Resolve (Json200Shorten shortUrl shortCode))
            (fun _ => Resolve Json500FailedToShorten)
    | _ => Reject TypeError
    end
  else Resolve Json400InvalidUrl.

(** GET /api/stats/:shortCode *)
Definition get_api_stats (shortCode : jsstring) : async response :=
  try_catch
    (stats <- getUrlStats shortCode ;; Resolve (Json200Stats stats))
    (fun _ => Resolve Json404NotFound).

(** GET /:shortCode *)
Definition get_shortCode (h : Host) (shortCode : jsstring) : async response :=
  try_catch
    (row <- getUrlByShortCode h shortCode ;;
     _ <- incrementClickCount shortCode ;;
     Resolve (Redirect302 (original_url row)))
    (fun err =>
       match status err, err with
       | Some expired, ExpiredStatus e => Resolve (Html410Expired e)
       | _, _ => Resolve Html404NotFound
       end).

(* ================================================================== *)
(** ** Derived notions used by the statements *)

(** The row that an accepted INSERT of [createShortUrl] adds. *)
Definition new_row (h : Host) (originalUrl : jsstring) (expiresAt : jsval)
  : Row :=
  {| short_code := shortid_generate h 0;
     original_url := trim originalUrl;
     click_count := 0;
     created_at := DATETIME_round (Date_now h);
     expires_at := match expires_param h expiresAt with
                   | Some (ValidDate t) => Some (DATETIME_round t)
                   | _ => None
                   end |}.

(** The expiration of a call is taken as a parameter: it is absent, or a
    valid date within the range of DATETIME. *)
Definition expires_accepted (h : Host) (expiresAt : jsval) : bool :=
  DateTime_param_ok (expires_param h expiresAt).

(** The store accepts that INSERT: the generated code is not taken and the
    expiration is taken as a parameter. *)
Definition insert_accepted (h : Host) (expiresAt : jsval) (db : table)
  : bool :=
  negb (existsb (has_code (shortid_generate h 0)) db) &&
  expires_accepted h expiresAt.

(** Tables that serial requests produce from the empty table. *)
Inductive reachable : table -> Prop :=
| reachable_empty : reachable []
| reachable_create h u e db :
    reachable db -> reachable (snd (run (createShortUrl h u e) db))
| reachable_redirect h c db :
    reachable db -> reachable (snd (run (get_shortCode h c) db)).

(** The expiration boundary with the expired side closed at [T]. *)
Definition expiration_boundary_closed_at_T : Prop :=
  forall h db r T,
    primary_key db = true -> In r db -> expires_at r = Some T ->
    (Date_now h < T ->
     run (get_shortCode h (short_code r)) db =
       (Fulfilled (Redirect302 (original_url r)),
        map (bump (short_code r)) db)) /\
    (T <= Date_now h ->
     run (get_shortCode h (short_code r)) db =
       (Fulfilled (Html410Expired T), db)).

(** The round trip for whatever code [createShortUrl] returns, be the
    record new or not. *)
Definition round_trip_for_any_returned_code : Prop :=
  forall h h' u c db db1,
    primary_key db = true ->
    run (createShortUrl h u JSUndefined) db = (Fulfilled c, db1) ->
    exists row db2,
      run (get_shortCode h' c) db1 =
        (Fulfilled (Redirect302 (trim u)), db2) /\
      run (getUrlStats c) db2 = (Fulfilled row, db2) /\
      original_url row = trim u /\ click_count row = 1.

(** A bounded regenerate-and-retry on a short-code collision: some fixed
    number of attempts, at least two, such that the call returns a code
    whenever one of the codes generated within that many attempts is free. *)
Definition collision_retry_bounded : Prop :=
  exists attempts : nat,
    (2 <= attempts)%nat /\
    forall h u e db,
      count_url (trim u) db = 0%nat ->
      expires_accepted h e = true ->
      (exists k, (k < attempts)%nat /\
                 existsb (has_code (shortid_generate h k)) db = false) ->
      exists c db', run (createShortUrl h u e) db = (Fulfilled c, db').

(** Two requests for the same new URL in flight, under any schedule: one
    code for both callers and one record. *)
Definition duplicate_race_one_record : Prop :=
  forall sched h1 h2 u e1 e2 db,
    count_url (trim u) db = 0%nat ->
    insert_accepted h1 e1 db = true ->
    insert_accepted h2 e2 db = true ->
    shortid_generate h1 0 <> shortid_generate h2 0 ->
    exists c db',
      interleave sched (createShortUrl h1 u e1) (createShortUrl h2 u e2) db =
        (Fulfilled c, Fulfilled c, db') /\
      count_url (trim u) db' = 1%nat.

(** Idempotent creation on every table, whatever rows it holds before the
    two calls. *)
Definition idempotent_creation_on_every_table : Prop :=
  forall h1 h2 u l1 r1 l2 r2 e1 e2 db,
    forallb isWhiteSpace l1 = true -> forallb isWhiteSpace r1 = true ->
    forallb isWhiteSpace l2 = true -> forallb isWhiteSpace r2 = true ->
    (count_url (trim u) db = 0%nat -> insert_accepted h1 e1 db = true) ->
    exists c db1,
      run (createShortUrl h1 (l1 ++ u ++ r1) e1) db = (Fulfilled c, db1) /\
      run (createShortUrl h2 (l2 ++ u ++ r2) e2) db1 = (Fulfilled c, db1) /\
      count_url (trim u) db1 = 1%nat.

(** A new record that holds the current time and the supplied expiration
    to the millisecond, for every instant supplied. *)
Definition new_record_keeps_exact_instants : Prop :=
  forall h u e db t,
    count_url (trim u) db = 0%nat ->
    existsb (has_code (shortid_generate h 0)) db = false ->
    truthy e = true -> new_Date h e = ValidDate t ->
    exists row,
      run (createShortUrl h u e) db =
        (Fulfilled (shortid_generate h 0), db ++ [row]) /\
      click_count row = 0 /\
      created_at row = Date_now h /\
      expires_at row = Some t.

Definition turn_eqb (a b : turn) : bool :=
  match a, b with
  | First, First | Second, Second => true
  | _, _ => false
  end.

(** The turns in which the store answers two requests: those of the
    schedule, then the first request to its end, then the second. *)
Definition turns (sched : list turn) : list turn :=
  sched ++ [First; First; Second; Second].

(** The first turn of a [createShortUrl] whose URL is new answers its
    lookup and its second turn its INSERT. Both lookups are answered before
    either INSERT exactly when the first two turns go to different
    requests; otherwise one request has its INSERT answered before the
    other's lookup. *)
Definition lookups_before_inserts (sched : list turn) : bool :=
  match turns sched with
  | t1 :: t2 :: _ => negb (turn_eqb t1 t2)
  | _ => false
  end.

(** The request whose lookup is answered first, and the request that has
    the third turn (its INSERT, when the two lookups came first). *)
Definition first_turn (sched : list turn) : turn := hd First (turns sched).

Definition third_turn (sched : list turn) : turn := nth 2 (turns sched) First.

(** What is left of [createShortUrl] once its lookup has found no row:
    generate a code, INSERT, return the code. *)
Definition create_insert (h : Host) (trimmedUrl : jsstring)
    (expiresAt : jsval) : async jsstring :=
  try_catch
    (let shortCode := shortid_generate h 0 in
     _ <- await (InsertUrl shortCode trimmedUrl
                   (ValidDate (Date_now h))
                   (expires_param h expiresAt)) ;;
     Resolve shortCode)
    (fun err => Reject err).

(* ================================================================== *)
(** ** Concrete hosts and tables *)

Definition example_com : jsstring := str "https://example.com".

Definition the_end_of_2025 : jsstring := str "2025-12-31T23:59:59Z".

(** A host whose clock reads [now] (0 when [now] is no instant of a
    DATETIME) and whose generator yields [codes] in turn. *)
Definition host (now : Z) (codes : list jsstring) : Host :=
  {| Date_now := if DATETIME_accepts now then now else 0;
     clock_in_range :=
       match DATETIME_accepts now as b
             return DATETIME_accepts now = b ->
                    DATETIME_accepts (if b then now else 0) = true
       with
       | true => fun E => E
       | false => fun _ => eq_refl
       end eq_refl;
     Date_parse := fun s => if str_eqb s the_end_of_2025
                            then Some 1767225599000 else None;
     shortid_generate := fun k => nth k codes [];
     URL_parses := fun _ => true;
     BASE_URL := str "http://localhost:5000" |}.

Definition row_abc (clicks : Z) (expires : option Z) : Row :=
  {| short_code := str "abc"; original_url := example_com;
     click_count := clicks; created_at := 0; expires_at := expires |}.

Definition row_xyz (created : Z) : Row :=
  {| short_code := str "xyz"; original_url := example_com;
     click_count := 0; created_at := created; expires_at := None |}.

(* ================================================================== *)
(** ** The rest of server.js, and requests served in sequence *)

(** GET /api/qr/:shortCode: the text handed to [QRCode.toFileStream],
    [`${BASE_URL}/${shortCode}`]. The handler sends no request to the
    store. *)
Definition get_api_qr (h : Host) (shortCode : jsstring) : jsstring :=
  BASE_URL h ++ str "/" ++ shortCode.

(** GET /api/debug/urls: the recordset of
    [SELECT short_code, original_url FROM urls] that the handler sends as
    JSON when the store answers. *)
Definition get_api_debug_urls (db : table) : list (jsstring * jsstring) :=
  map (fun r => (short_code r, original_url r)) db.

(** The requests that reach the service functions. *)
Inductive request :=
| POST_api_shorten (h : Host) (url : jsval) (expires_at : jsval)
| GET_api_stats (shortCode : jsstring)
| GET_shortCode (h : Host) (shortCode : jsstring).

Definition serve (rq : request) : async response :=
  match rq with
  | POST_api_shorten h url expires_at => post_api_shorten h url expires_at
  | GET_api_stats shortCode => get_api_stats shortCode
  | GET_shortCode h shortCode => get_shortCode h shortCode
  end.

(** Requests handled one after the other: the answers, and the table that
    is left. *)
Fixpoint serve_all (rqs : list request) (db : table)
  : list (settled response) * table :=
  match rqs with
  | [] => ([], db)
  | rq :: rest =>
      let '(a, db1) := run (serve rq) db in
      let '(answers, db2) := serve_all rest db1 in
      (a :: answers, db2)
  end.

(** [currentTime > expiryTime] for a row that has an expiration. *)
Definition expired_at (h : Host) (r : Row) : bool :=
  match expires_at r with
  | Some T => Date_now h >? T
  | None => false
  end.

(** What is left of the GET /:shortCode handler once the lookup has
    returned a row: count the click, then redirect to the row's URL. *)
Definition redirect_pending (shortCode url : jsstring) : async response :=
  try_catch
    (_ <- incrementClickCount shortCode ;;
     Resolve (Redirect302 url))
    (fun err =>
       match status err, err with
       | Some expired, ExpiredStatus e => Resolve (Html410Expired e)
       | _, _ => Resolve Html404NotFound
       end).

(** The configurations that two GET /:shortCode requests for the code of
    one row go through, from the table [db0]: each request is looking up,
    about to count its click, or done. *)
Inductive clicking (h1 h2 : Host) (c url : jsstring) (db0 : table)
  : async response -> async response -> table -> Prop :=
| clicking_look_look :
    clicking h1 h2 c url db0 (get_shortCode h1 c) (get_shortCode h2 c) db0
| clicking_pend_look :
    clicking h1 h2 c url db0 (redirect_pending c url) (get_shortCode h2 c) db0
| clicking_look_pend :
    clicking h1 h2 c url db0 (get_shortCode h1 c) (redirect_pending c url) db0
| clicking_pend_pend :
    clicking h1 h2 c url db0
      (redirect_pending c url) (redirect_pending c url) db0
| clicking_done_look :
    clicking h1 h2 c url db0
      (Resolve (Redirect302 url)) (get_shortCode h2 c) (map (bump c) db0)
| clicking_look_done :
    clicking h1 h2 c url db0
      (get_shortCode h1 c) (Resolve (Redirect302 url)) (map (bump c) db0)
| clicking_done_pend :
    clicking h1 h2 c url db0
      (Resolve (Redirect302 url)) (redirect_pending c url) (map (bump c) db0)
| clicking_pend_done :
    clicking h1 h2 c url db0
      (redirect_pending c url) (Resolve (Redirect302 url)) (map (bump c) db0)
| clicking_done_done :
    clicking h1 h2 c url db0
      (Resolve (Redirect302 url)) (Resolve (Redirect302 url))
      (map (bump c) (map (bump c) db0)).

(** The shape of the rows that the service writes: a trimmed URL and a
    click count within the INT column, at least 0. *)
Definition row_ok (r : Row) : bool :=
  str_eqb (trim (original_url r)) (original_url r) &&
  (0 <=? click_count r) && (click_count r <=? INT_MAX).

(** A later state of a row: the same code, URL, creation time and
    expiration, and no fewer clicks. *)
Definition later_state_of (r r' : Row) : Prop :=
  short_code r' = short_code r /\
  original_url r' = original_url r /\
  created_at r' = created_at r /\
  expires_at r' = expires_at r /\
  click_count r <= click_count r'.

(** What the service keeps true of its table: the primary key, at most one
    row per URL, and rows of the shape above. *)
Definition well_formed (db : table) : Prop :=
  primary_key db = true /\
  (forall v, (count_url v db <= 1)%nat) /\
  forallb row_ok db = true.

(* ================================================================== *)
(** ** Strings *)

Lemma str_eqb_refl (a : jsstring) : str_eqb a a = true.
Proof.
  induction a as [|x a IH]; simpl; [reflexivity|].
  now rewrite N.eqb_refl, IH.
Qed.

Lemma str_eqb_eq (a b : jsstring) : str_eqb a b = true <-> a = b.
Proof.
  split.
  - revert b; induction a as [|x a IH]; intros [|y b]; simpl; try discriminate.
    + reflexivity.
    + intros H. apply andb_true_iff in H as [Hx Hab].
      apply N.eqb_eq in Hx. now rewrite Hx, (IH b Hab).
  - intros ->. apply str_eqb_refl.
Qed.

Lemma str_eqb_neq (a b : jsstring) : str_eqb a b = false <-> a <> b.
Proof.
  split.
  - intros H E. apply str_eqb_eq in E. congruence.
  - intros H. destruct (str_eqb a b) eqn:E; [|reflexivity].
    apply str_eqb_eq in E. contradiction.
Qed.

Lemma trimStart_whitespace (l s : jsstring) :
  forallb isWhiteSpace l = true -> trimStart (l ++ s) = trimStart s.
Proof.
  induction l as [|c l IH]; simpl; [reflexivity|].
  intros H. apply andb_true_iff in H as [Hc Hl].
  now rewrite Hc, IH.
Qed.

Lemma trimStart_app (a b : jsstring) :
  trimStart (a ++ b) =
  match trimStart a with
  | [] => trimStart b
  | t => t ++ b
  end.
Proof.
  induction a as [|c a IH]; simpl.
  - now destruct (trimStart b).
  - destruct (isWhiteSpace c); [exact IH | reflexivity].
Qed.

Lemma forallb_rev {A} (f : A -> bool) (l : list A) :
  forallb f (rev l) = forallb f l.
Proof.
  induction l as [|x l IH]; simpl; [reflexivity|].
  rewrite forallb_app, IH. simpl. rewrite andb_true_r. apply andb_comm.
Qed.

Lemma trimEnd_whitespace (s r : jsstring) :
  forallb isWhiteSpace r = true -> trimEnd (s ++ r) = trimEnd s.
Proof.
  intros H. unfold trimEnd. rewrite rev_app_distr.
  rewrite trimStart_whitespace; [reflexivity|].
  now rewrite forallb_rev.
Qed.

Lemma trimStart_all_whitespace (s : jsstring) :
  forallb isWhiteSpace s = true -> trimStart s = [].
Proof.
  intros H. rewrite <- (app_nil_r s). now rewrite trimStart_whitespace.
Qed.

(** Surrounding whitespace does not change what [trim] returns. *)
Lemma trim_surrounded (l u r : jsstring) :
  forallb isWhiteSpace l = true ->
  forallb isWhiteSpace r = true ->
  trim (l ++ u ++ r) = trim u.
Proof.
  intros Hl Hr. unfold trim.
  rewrite trimStart_whitespace by assumption.
  rewrite trimStart_app.
  destruct (trimStart u) as [|c t] eqn:E.
  - now rewrite trimStart_all_whitespace.
  - now rewrite trimEnd_whitespace.
Qed.

Lemma trimStart_head (s : jsstring) :
  match trimStart s with
  | [] => True
  | c :: _ => isWhiteSpace c = false
  end.
Proof.
  induction s as [|c s IH]; simpl; [exact I|].
  destruct (isWhiteSpace c) eqn:E; [exact IH | exact E].
Qed.

Lemma trimEnd_keeps_head (c : N) (t : jsstring) :
  isWhiteSpace c = false -> exists t', trimEnd (c :: t) = c :: t'.
Proof.
  intros Hc. unfold trimEnd. simpl. rewrite trimStart_app.
  destruct (trimStart (rev t)) as [|x y].
  - simpl. rewrite Hc. now exists [].
  - rewrite rev_app_distr. simpl. now eexists.
Qed.

Lemma trimEnd_idempotent (s : jsstring) : trimEnd (trimEnd s) = trimEnd s.
Proof.
  unfold trimEnd. rewrite rev_involutive. f_equal.
  generalize (rev s) as t. intros t.
  induction t as [|c t IH]; simpl; [reflexivity|].
  destruct (isWhiteSpace c) eqn:E; [exact IH | simpl; now rewrite E].
Qed.

Lemma trim_idempotent (s : jsstring) : trim (trim s) = trim s.
Proof.
  unfold trim. pose proof (trimStart_head s) as Hh.
  destruct (trimStart s) as [|c t]; [reflexivity|].
  destruct (trimEnd_keeps_head c t Hh) as [t' Ht'].
  rewrite Ht' at 1. simpl. rewrite Hh, <- Ht'. apply trimEnd_idempotent.
Qed.

(* ================================================================== *)
(** ** The table *)

Lemma existsb_false_filter {A} (f : A -> bool) (l : list A) :
  existsb f l = false <-> filter f l = [].
Proof.
  induction l as [|x l IH]; simpl; [tauto|].
  destruct (f x); simpl; [split; discriminate | exact IH].
Qed.

Lemma filter_none {A} (f : A -> bool) (l : list A) :
  existsb f l = false -> filter f l = [].
Proof. apply existsb_false_filter. Qed.

Lemma has_code_same (r : Row) : has_code (short_code r) r = true.
Proof. apply str_eqb_refl. Qed.

Lemma has_code_eq (c : jsstring) (r : Row) :
  has_code c r = true <-> short_code r = c.
Proof. apply str_eqb_eq. Qed.

Lemma has_url_eq (u : jsstring) (r : Row) :
  has_url u r = true <-> original_url r = u.
Proof. apply str_eqb_eq. Qed.

Lemma existsb_has_code_in (r : Row) (db : table) :
  In r db -> existsb (has_code (short_code r)) db = true.
Proof.
  intros H. apply existsb_exists. exists r. split; [assumption|].
  apply has_code_same.
Qed.

(** Under the primary key a code selects exactly its row. *)
Lemma select_by_code_unique (db : table) (r : Row) :
  primary_key db = true -> In r db ->
  filter (has_code (short_code r)) db = [r].
Proof.
  induction db as [|x db IH]; simpl; [contradiction|].
  intros Hpk Hin. apply andb_true_iff in Hpk as [Hx Hpk].
  apply negb_true_iff in Hx.
  destruct Hin as [-> | Hin].
  - rewrite has_code_same. f_equal. now apply filter_none.
  - destruct (has_code (short_code r) x) eqn:E.
    + apply has_code_eq in E. rewrite E in Hx.
      rewrite (existsb_has_code_in r db Hin) in Hx. discriminate.
    + now apply IH.
Qed.

Lemma overflows_unique (db : table) (r : Row) :
  primary_key db = true -> In r db ->
  existsb (overflows (short_code r)) db = (INT_MAX <? click_count r + 1).
Proof.
  induction db as [|x db IH]; simpl; [contradiction|].
  intros Hpk Hin. apply andb_true_iff in Hpk as [Hx Hpk].
  apply negb_true_iff in Hx.
  assert (Hnone : forall c, existsb (has_code c) db = false ->
                            existsb (overflows c) db = false).
  { intros c Hc. clear -Hc. induction db as [|y db IH]; simpl in *; [reflexivity|].
    apply orb_false_iff in Hc as [Hy Hc]. unfold overflows at 1.
    rewrite Hy. simpl. now apply IH. }
  destruct Hin as [-> | Hin].
  - unfold overflows at 1. rewrite has_code_same. simpl.
    rewrite (Hnone _ Hx). apply orb_false_r.
  - unfold overflows at 1.
    destruct (has_code (short_code r) x) eqn:E.
    + apply has_code_eq in E. rewrite E in Hx.
      rewrite (existsb_has_code_in r db Hin) in Hx. discriminate.
    + simpl. now apply IH.
Qed.

Lemma bump_other (c : jsstring) (db : table) :
  existsb (has_code c) db = false -> map (bump c) db = db.
Proof.
  induction db as [|x db IH]; simpl; [reflexivity|].
  intros H. apply orb_false_iff in H as [Hx H].
  unfold bump at 1. rewrite Hx. now rewrite IH.
Qed.

Lemma short_code_bump (c : jsstring) (r : Row) :
  short_code (bump c r) = short_code r.
Proof. unfold bump. now destruct (has_code c r). Qed.

Lemma original_url_bump (c : jsstring) (r : Row) :
  original_url (bump c r) = original_url r.
Proof. unfold bump. now destruct (has_code c r). Qed.

Lemma has_code_bump (c d : jsstring) (r : Row) :
  has_code d (bump c r) = has_code d r.
Proof. unfold has_code. now rewrite short_code_bump. Qed.

Lemma has_url_bump (c u : jsstring) (r : Row) :
  has_url u (bump c r) = has_url u r.
Proof. unfold has_url. now rewrite original_url_bump. Qed.

Lemma filter_map_bump (f : Row -> bool) (c : jsstring) (db : table) :
  (forall r, f (bump c r) = f r) ->
  filter f (map (bump c) db) = map (bump c) (filter f db).
Proof.
  intros Hf. induction db as [|x db IH]; simpl; [reflexivity|].
  rewrite Hf. destruct (f x); simpl; now rewrite IH.
Qed.

Lemma existsb_map_bump (c d : jsstring) (db : table) :
  existsb (has_code d) (map (bump c) db) = existsb (has_code d) db.
Proof.
  induction db as [|x db IH]; simpl; [reflexivity|].
  now rewrite has_code_bump, IH.
Qed.

Lemma primary_key_bump (c : jsstring) (db : table) :
  primary_key (map (bump c) db) = primary_key db.
Proof.
  induction db as [|x db IH]; simpl; [reflexivity|].
  now rewrite short_code_bump, existsb_map_bump, IH.
Qed.

Lemma count_url_bump (c u : jsstring) (db : table) :
  count_url u (map (bump c) db) = count_url u db.
Proof.
  unfold count_url. rewrite filter_map_bump by (intros; apply has_url_bump).
  apply length_map.
Qed.

Lemma primary_key_snoc (db : table) (r : Row) :
  primary_key db = true ->
  existsb (has_code (short_code r)) db = false ->
  primary_key (db ++ [r]) = true.
Proof.
  induction db as [|x db IH]; simpl; [reflexivity|].
  intros Hpk Hr. apply andb_true_iff in Hpk as [Hx Hpk].
  apply orb_false_iff in Hr as [Hxr Hr].
  rewrite IH by assumption. rewrite andb_true_r.
  rewrite existsb_app. simpl. apply negb_true_iff in Hx. rewrite Hx. simpl.
  rewrite orb_false_r. apply negb_true_iff.
  apply str_eqb_neq. intros E. apply str_eqb_neq in Hxr. congruence.
Qed.

Lemma count_url_snoc (u : jsstring) (db : table) (r : Row) :
  count_url u (db ++ [r]) =
  (count_url u db + (if has_url u r then 1 else 0))%nat.
Proof.
  unfold count_url. rewrite filter_app, length_app. simpl.
  now destruct (has_url u r).
Qed.

Lemma count_url_zero (u : jsstring) (db : table) :
  count_url u db = 0%nat <-> filter (has_url u) db = [].
Proof. unfold count_url. apply length_zero_iff_nil. Qed.

(* ================================================================== *)
(** ** Serial runs of the service functions *)

Lemma run_bind {A B} (p : async A) (f : A -> async B) (db : table) :
  run (bind p f) db =
  match run p db with
  | (Fulfilled a, db') => run (f a) db'
  | (Rejected e, db') => (Rejected e, db')
  end.
Proof.
  revert db. induction p as [a|e|R q k IH]; intros db; simpl; try reflexivity.
  destruct (exec q db) as [r db']. apply IH.
Qed.

Lemma run_try_catch {A} (p : async A) (h : thrown -> async A) (db : table) :
  run (try_catch p h) db =
  match run p db with
  | (Fulfilled a, db') => (Fulfilled a, db')
  | (Rejected e, db') => run (h e) db'
  end.
Proof.
  revert db. induction p as [a|e|R q k IH]; intros db; simpl; try reflexivity.
  destruct (exec q db) as [r db']. apply IH.
Qed.

(** A handler that only rethrows leaves the outcome as it is. *)
Lemma run_rethrow {A} (p : async A) (db : table) :
  run (try_catch p (fun err => Reject err)) db = run p db.
Proof.
  rewrite run_try_catch. now destruct (run p db) as [[a|e] db'].
Qed.

Lemma expires_param_default (h : Host) (e : jsval) :
  expires_param h (match e with JSUndefined => JSNull | v => v end) =
  expires_param h e.
Proof. now destruct e. Qed.

Lemma run_createShortUrl (h : Host) (u : jsstring) (e : jsval) (db : table) :
  run (createShortUrl h u e) db =
  match filter (has_url (trim u)) db with
  | r :: _ => (Fulfilled (short_code r), db)
  | [] =>
      if insert_accepted h e db
      then (Fulfilled (shortid_generate h 0), db ++ [new_row h u e])
      else (Rejected (StoreError
                        (if expires_accepted h e
                         then PrimaryKeyViolation
                         else InvalidParameter)), db)
  end.
Proof.
  unfold createShortUrl, insert_accepted, expires_accepted, new_row.
  rewrite expires_param_default. simpl.
  destruct (filter (has_url (trim u)) db) as [|r rest]; simpl; [|reflexivity].
  unfold insert_row. cbn [DateTime_param_ok]. rewrite (clock_in_range h).
  cbn [andb].
  destruct (expires_param h e) as [[t|]|]; cbn [DateTime_param_ok negb];
    try destruct (DATETIME_accepts t); cbn [negb];
    destruct (existsb (has_code (shortid_generate h 0)) db); reflexivity.
Qed.

Lemma run_getUrlByShortCode (h : Host) (c : jsstring) (db : table) :
  run (getUrlByShortCode h c) db =
  match filter (has_code c) db with
  | [] => (Rejected NotFoundStatus, db)
  | row :: _ =>
      match expires_at row with
      | Some T => if Date_now h >? T
                  then (Rejected (ExpiredStatus T), db)
                  else (Fulfilled row, db)
      | None => (Fulfilled row, db)
      end
  end.
Proof.
  unfold getUrlByShortCode. simpl.
  destruct (filter (has_code c) db) as [|row rest]; simpl; [reflexivity|].
  destruct (expires_at row) as [T|]; simpl; [|reflexivity].
  destruct (Date_now h >? T); reflexivity.
Qed.

Lemma run_getUrlStats (c : jsstring) (db : table) :
  run (getUrlStats c) db =
  match filter (has_code c) db with
  | [] => (Rejected ErrorNotFound, db)
  | row :: _ => (Fulfilled row, db)
  end.
Proof.
  unfold getUrlStats. simpl.
  destruct (filter (has_code c) db) as [|row rest]; reflexivity.
Qed.

Lemma run_get_api_stats (c : jsstring) (db : table) :
  run (get_api_stats c) db =
  match filter (has_code c) db with
  | [] => (Fulfilled Json404NotFound, db)
  | row :: _ => (Fulfilled (Json200Stats row), db)
  end.
Proof.
  unfold get_api_stats. rewrite run_try_catch, run_bind, run_getUrlStats.
  destruct (filter (has_code c) db) as [|row rest]; reflexivity.
Qed.

Lemma run_incrementClickCount (c : jsstring) (db : table) :
  run (incrementClickCount c) db =
  if existsb (overflows c) db
  then (Rejected (StoreError ArithmeticOverflow), db)
  else (Fulfilled tt, map (bump c) db).
Proof.
  unfold incrementClickCount. simpl.
  destruct (existsb (overflows c) db); reflexivity.
Qed.

Lemma run_get_shortCode (h : Host) (c : jsstring) (db : table) :
  run (get_shortCode h c) db =
  match filter (has_code c) db with
  | [] => (Fulfilled Html404NotFound, db)
  | row :: _ =>
      if match expires_at row with
         | Some T => Date_now h >? T
         | None => false
         end
      then (Fulfilled (match expires_at row with
                       | Some T => Html410Expired T
                       | None => Html404NotFound
                       end), db)
      else if existsb (overflows c) db
           then (Fulfilled Html404NotFound, db)
           else (Fulfilled (Redirect302 (original_url row)),
                 map (bump c) db)
  end.
Proof.
  unfold get_shortCode.
  rewrite run_try_catch, run_bind, run_getUrlByShortCode.
  destruct (filter (has_code c) db) as [|row rest]; [reflexivity|].
  destruct (expires_at row) as [T|].
  - destruct (Date_now h >? T); [reflexivity|].
    rewrite run_bind, run_incrementClickCount.
    destruct (existsb (overflows c) db); reflexivity.
  - rewrite run_bind, run_incrementClickCount.
    destruct (existsb (overflows c) db); reflexivity.
Qed.

(* ================================================================== *)
(** ** Invariants of serial execution *)

Lemma has_url_new_row (h : Host) (u : jsstring) (e : jsval) :
  has_url (trim u) (new_row h u e) = true.
Proof. apply str_eqb_refl. Qed.

Lemma insert_accepted_fresh (h : Host) (e : jsval) (db : table) :
  insert_accepted h e db = true ->
  existsb (has_code (shortid_generate h 0)) db = false.
Proof.
  unfold insert_accepted. intros H.
  apply andb_true_iff in H as [H _]. now apply negb_true_iff.
Qed.

Lemma createShortUrl_primary_key (h : Host) (u : jsstring) (e : jsval)
    (db : table) :
  primary_key db = true ->
  primary_key (snd (run (createShortUrl h u e) db)) = true.
Proof.
  intros Hpk. rewrite run_createShortUrl.
  destruct (filter (has_url (trim u)) db) as [|r rest]; [|assumption].
  destruct (insert_accepted h e db) eqn:Hacc; [|assumption].
  simpl. apply primary_key_snoc; [assumption|].
  now apply insert_accepted_fresh in Hacc.
Qed.

Lemma createShortUrl_dedup (h : Host) (u : jsstring) (e : jsval)
    (db : table) :
  (forall v, (count_url v db <= 1)%nat) ->
  forall v, (count_url v (snd (run (createShortUrl h u e) db)) <= 1)%nat.
Proof.
  intros Hdb v. rewrite run_createShortUrl.
  destruct (filter (has_url (trim u)) db) as [|r rest] eqn:Hsel; [|apply Hdb].
  destruct (insert_accepted h e db); [|apply Hdb].
  simpl. rewrite count_url_snoc.
  destruct (has_url v (new_row h u e)) eqn:Hv; [|specialize (Hdb v); lia].
  apply has_url_eq in Hv. simpl in Hv. subst v.
  apply count_url_zero in Hsel. rewrite Hsel. lia.
Qed.

Lemma get_shortCode_table (h : Host) (c : jsstring) (db : table) :
  snd (run (get_shortCode h c) db) = db \/
  snd (run (get_shortCode h c) db) = map (bump c) db.
Proof.
  rewrite run_get_shortCode.
  destruct (filter (has_code c) db) as [|row rest]; [now left|].
  destruct (match expires_at row with Some T => Date_now h >? T | None => false end);
    [now left|].
  destruct (existsb (overflows c) db); [now left | now right].
Qed.

(** Every table that serial requests produce satisfies the primary key and
    holds at most one row per URL. *)
Lemma reachable_invariants (db : table) :
  reachable db ->
  primary_key db = true /\ forall v, (count_url v db <= 1)%nat.
Proof.
  induction 1 as [|h u e db Hr [Hpk Hd]|h c db Hr [Hpk Hd]].
  - split; [reflexivity | intros v; apply Nat.le_0_l].
  - split; [now apply createShortUrl_primary_key
           | now apply createShortUrl_dedup].
  - destruct (get_shortCode_table h c db) as [-> | ->]; [now split|].
    split; [now rewrite primary_key_bump|].
    intros v. rewrite count_url_bump. apply Hd.
Qed.

Lemma select_after_bump (db : table) (r : Row) :
  primary_key db = true -> In r db ->
  filter (has_code (short_code r)) (map (bump (short_code r)) db) =
  [clicked r].
Proof.
  intros Hpk Hin.
  rewrite filter_map_bump by (intros; apply has_code_bump).
  rewrite select_by_code_unique by assumption. simpl.
  unfold bump. now rewrite has_code_same.
Qed.

Lemma select_snoc_fresh (c : jsstring) (db : table) (r : Row) :
  existsb (has_code c) db = false -> short_code r = c ->
  filter (has_code c) (db ++ [r]) = [r].
Proof.
  intros Hfresh Hc. rewrite filter_app, (filter_none _ _ Hfresh). simpl.
  apply has_code_eq in Hc. now rewrite Hc.
Qed.

Lemma trimStart_prefix (s : jsstring) :
  exists l, s = l ++ trimStart s /\ forallb isWhiteSpace l = true.
Proof.
  induction s as [|c s [l [Hs Hl]]]; [now exists []|].
  simpl. destruct (isWhiteSpace c) eqn:E.
  - exists (c :: l). simpl. rewrite E, Hl. split; [now f_equal | reflexivity].
  - now exists [].
Qed.

(** [trim] removes a run of whitespace at each end and leaves a string
    that neither starts nor ends with whitespace. *)
Lemma trim_decomposition (s : jsstring) :
  exists l r,
    s = l ++ trim s ++ r /\
    forallb isWhiteSpace l = true /\ forallb isWhiteSpace r = true /\
    match trim s with [] => True | c :: _ => isWhiteSpace c = false end /\
    match rev (trim s) with [] => True | c :: _ => isWhiteSpace c = false end.
Proof.
  destruct (trimStart_prefix s) as [l [Hs Hl]].
  destruct (trimStart_prefix (rev (trimStart s))) as [l' [Hs' Hl']].
  exists l, (rev l'). split; [|split; [exact Hl|split; [|split]]].
  - unfold trim, trimEnd. rewrite <- rev_app_distr, <- Hs', rev_involutive.
    exact Hs.
  - now rewrite forallb_rev.
  - unfold trim. pose proof (trimStart_head s) as Hh.
    destruct (trimStart s) as [|c t]; [exact I|].
    destruct (trimEnd_keeps_head c t Hh) as [t' ->]. exact Hh.
  - unfold trim, trimEnd. rewrite rev_involutive. apply trimStart_head.
Qed.

(** A DATETIME gives an instant back within 2 ms of it. *)
Lemma DATETIME_round_close (t : Z) :
  t - 2 <= DATETIME_round t <= t + 2.
Proof.
  unfold DATETIME_round.
  pose proof (Z.div_mod t 86400000 ltac:(lia)) as Ht.
  pose proof (Z.mod_pos_bound t 86400000 ltac:(lia)) as Hm.
  set (m := t mod 86400000) in *. set (d := t / 86400000) in *.
  pose proof (Z.div_mod (3 * m + 5) 10 ltac:(lia)) as Hk.
  pose proof (Z.mod_pos_bound (3 * m + 5) 10 ltac:(lia)) as Hkm.
  set (k := (3 * m + 5) / 10) in *.
  pose proof (Z.div_mod (20 * k + 3) 6 ltac:(lia)) as Hr.
  pose proof (Z.mod_pos_bound (20 * k + 3) 6 ltac:(lia)) as Hrm.
  lia.
Qed.

Lemma expires_accepted_absent (h : Host) (e : jsval) :
  truthy e = false -> expires_accepted h e = true.
Proof.
  intros H. unfold expires_accepted, expires_param. now rewrite H.
Qed.

(* ================================================================== *)
(** ** Creation *)

(** C1, as the code has it. Idempotent creation up to surrounding
    whitespace, on a table that holds at most one row for the trimmed URL
    (as every table made by serial requests does): two calls, one after the
    other, whose URL arguments are [u] wrapped in whitespace return the same
    short code, the code of a row for the trimmed [u], and afterwards
    exactly one row holds the trimmed [u], which is [u] without the
    whitespace at its two ends. When the table holds no such row the store
    accepts the first call's INSERT. *)
Theorem create_idempotent_up_to_whitespace
    (h1 h2 : Host) (u l1 r1 l2 r2 : jsstring) (e1 e2 : jsval) (db : table) :
  forallb isWhiteSpace l1 = true -> forallb isWhiteSpace r1 = true ->
  forallb isWhiteSpace l2 = true -> forallb isWhiteSpace r2 = true ->
  (count_url (trim u) db <= 1)%nat ->
  (count_url (trim u) db = 0%nat -> insert_accepted h1 e1 db = true) ->
  exists c db1,
    run (createShortUrl h1 (l1 ++ u ++ r1) e1) db = (Fulfilled c, db1) /\
    run (createShortUrl h2 (l2 ++ u ++ r2) e2) db1 = (Fulfilled c, db1) /\
    count_url (trim u) db1 = 1%nat /\
    (exists row, In row db1 /\ short_code row = c /\
                 original_url row = trim u) /\
    (exists l r, u = l ++ trim u ++ r /\
                 forallb isWhiteSpace l = true /\
                 forallb isWhiteSpace r = true /\
                 match trim u with
                 | [] => True
                 | a :: _ => isWhiteSpace a = false
                 end /\
                 match rev (trim u) with
                 | [] => True
                 | a :: _ => isWhiteSpace a = false
                 end).
Proof.
  intros Hl1 Hr1 Hl2 Hr2 Hone Hacc.
  rewrite !run_createShortUrl.
  rewrite (trim_surrounded l1 u r1 Hl1 Hr1).
  destruct (filter (has_url (trim u)) db) as [|r rest] eqn:Hsel.
  - rewrite Hacc by now apply count_url_zero.
    exists (shortid_generate h1 0), (db ++ [new_row h1 (l1 ++ u ++ r1) e1]).
    assert (Hnew : has_url (trim u) (new_row h1 (l1 ++ u ++ r1) e1) = true).
    { rewrite <- (trim_surrounded l1 u r1 Hl1 Hr1) at 1. apply has_url_new_row. }
    split; [reflexivity|]. split; [|split; [|split]].
    + rewrite run_createShortUrl, (trim_surrounded l2 u r2 Hl2 Hr2).
      rewrite filter_app, Hsel. simpl. now rewrite Hnew.
    + rewrite count_url_snoc, Hnew.
      apply count_url_zero in Hsel. now rewrite Hsel.
    + exists (new_row h1 (l1 ++ u ++ r1) e1).
      split; [apply in_or_app; right; now left|].
      split; [reflexivity | now apply has_url_eq].
    + apply trim_decomposition.
  - exists (short_code r), db.
    split; [reflexivity|]. split; [|split; [|split]].
    + rewrite run_createShortUrl, (trim_surrounded l2 u r2 Hl2 Hr2).
      now rewrite Hsel.
    + unfold count_url in *. rewrite Hsel in *. simpl in *.
      destruct rest; simpl in *; [reflexivity | lia].
    + assert (Hr : In r (filter (has_url (trim u)) db))
        by (rewrite Hsel; now left).
      apply filter_In in Hr as [Hin Hu]. apply has_url_eq in Hu.
      now exists r.
    + apply trim_decomposition.
Qed.

Lemma create_idempotent_up_to_whitespace_witness :
  exists c db1,
    run (createShortUrl (host 1 [str "abc"]) example_com JSUndefined) [] =
      (Fulfilled c, db1) /\
    run (createShortUrl (host 2 [str "xyz"]) (str "  https://example.com  ")
           JSUndefined) db1 = (Fulfilled c, db1) /\
    count_url example_com db1 = 1%nat.
Proof.
  destruct (create_idempotent_up_to_whitespace
              (host 1 [str "abc"]) (host 2 [str "xyz"]) example_com
              [] [] (str "  ") (str "  ") JSUndefined JSUndefined []
              eq_refl eq_refl eq_refl eq_refl (Nat.le_0_l 1)
              (fun _ => eq_refl))
    as [c [db1 [H1 [H2 [H3 _]]]]].
  exists c, db1. split; [exact H1|]. split; [exact H2 | exact H3].
Defined.

(** Counterexample to C1 as stated. On a table that holds two rows for the
    URL, which two creations in flight leave behind, the two calls return
    the same code and two rows hold the URL afterwards. *)
Lemma create_idempotent_counterexample :
  interleave [First; Second]
    (createShortUrl (host 0 [str "abc"]) example_com JSNull)
    (createShortUrl (host 7 [str "xyz"]) example_com JSNull) [] =
    (Fulfilled (str "abc"), Fulfilled (str "xyz"),
     [row_abc 0 None; row_xyz 7]) /\
  run (createShortUrl (host 8 [str "nnn"]) example_com JSNull)
      [row_abc 0 None; row_xyz 7] =
    (Fulfilled (str "abc"), [row_abc 0 None; row_xyz 7]) /\
  run (createShortUrl (host 9 [str "mmm"]) (str "  https://example.com  ")
         JSNull) [row_abc 0 None; row_xyz 7] =
    (Fulfilled (str "abc"), [row_abc 0 None; row_xyz 7]) /\
  count_url (trim example_com) [row_abc 0 None; row_xyz 7] = 2%nat /\
  ~ idempotent_creation_on_every_table.
Proof.
  repeat (split; [reflexivity|]).
  intros Hclaim.
  destruct (Hclaim (host 8 [str "nnn"]) (host 9 [str "mmm"]) example_com
              [] [] (str "  ") (str "  ") JSNull JSNull
              [row_abc 0 None; row_xyz 7])
    as [c [db1 [H1 [_ Hcount]]]]; try reflexivity.
  vm_compute in H1. inversion H1; subst db1.
  vm_compute in Hcount. discriminate Hcount.
Qed.

(** C5. First writer wins: when a row already holds the trimmed URL, the
    call returns the short code of such a row and the table is the same
    table afterwards, whatever [expiresAt] the call was given. *)
Theorem create_existing_returns_code_and_changes_nothing
    (h : Host) (u : jsstring) (e : jsval) (db : table) :
  (0 < count_url (trim u) db)%nat ->
  exists r,
    In r db /\ original_url r = trim u /\
    run (createShortUrl h u e) db = (Fulfilled (short_code r), db).
Proof.
  intros Hex. rewrite run_createShortUrl. unfold count_url in Hex.
  destruct (filter (has_url (trim u)) db) as [|r rest] eqn:Hsel;
    [simpl in Hex; lia|].
  exists r. assert (Hr : In r (filter (has_url (trim u)) db))
    by (rewrite Hsel; now left).
  apply filter_In in Hr as [Hin Hu]. apply has_url_eq in Hu.
  now repeat split.
Qed.

Lemma create_existing_returns_code_and_changes_nothing_witness :
  exists r,
    In r [row_abc 5 (Some 1000)] /\ original_url r = trim example_com /\
    run (createShortUrl (host 2000 [str "xyz"]) example_com
           (JSString the_end_of_2025)) [row_abc 5 (Some 1000)] =
      (Fulfilled (short_code r), [row_abc 5 (Some 1000)]).
Proof.
  apply (create_existing_returns_code_and_changes_nothing
           (host 2000 [str "xyz"]) example_com (JSString the_end_of_2025)
           [row_abc 5 (Some 1000)]).
  vm_compute. lia.
Defined.

(** C7, as the code has it. A new record: when no row holds the trimmed
    URL and the store accepts the INSERT (the generated code is free and the
    expiration, when given, is a valid date within the range of DATETIME),
    the call returns the generated code and the table gains one row with
    that code, the trimmed URL, a click count of 0, the current time rounded
    to the DATETIME tick as creation time (within 2 ms of it), and as
    expiration the instant supplied as a string, a number or [true],
    rounded likewise, or none when the argument is absent. *)
Theorem create_new_record
    (h : Host) (u : jsstring) (e : jsval) (db : table) :
  count_url (trim u) db = 0%nat ->
  insert_accepted h e db = true ->
  exists row,
    run (createShortUrl h u e) db =
      (Fulfilled (shortid_generate h 0), db ++ [row]) /\
    short_code row = shortid_generate h 0 /\
    original_url row = trim u /\
    click_count row = 0 /\
    created_at row = DATETIME_round (Date_now h) /\
    Date_now h - 2 <= created_at row <= Date_now h + 2 /\
    (e = JSUndefined \/ e = JSNull -> expires_at row = None) /\
    (forall s t, e = JSString s -> s <> [] -> Date_parse h s = Some t ->
                 expires_at row = Some (DATETIME_round t) /\
                 DATETIME_MIN <= t <= DATETIME_MAX + 2) /\
    (forall q, e = JSNumber (Finite q) -> Qnum q <> 0 ->
               expires_at row =
                 Some (DATETIME_round (Z.quot (Qnum q) (Z.pos (Qden q))))) /\
    (e = JSBool true -> expires_at row = Some 0).
Proof.
  intros Hnew Hacc. exists (new_row h u e).
  rewrite run_createShortUrl.
  apply count_url_zero in Hnew. rewrite Hnew, Hacc.
  unfold insert_accepted in Hacc. apply andb_true_iff in Hacc as [_ Hexp].
  unfold expires_accepted, expires_param in Hexp.
  split; [reflexivity|]. split; [reflexivity|]. split; [reflexivity|].
  split; [reflexivity|]. split; [reflexivity|].
  split; [apply DATETIME_round_close|].
  split; [|split; [|split]].
  - intros [-> | ->]; reflexivity.
  - intros s t -> Hs Hparse.
    destruct s as [|a s]; [now contradiction Hs|].
    cbn [truthy new_Date] in Hexp. rewrite Hparse in Hexp.
    cbn [DateTime_param_ok] in Hexp.
    split.
    + cbn [new_row expires_at]. unfold expires_param.
      cbn [truthy new_Date]. now rewrite Hparse.
    + unfold DATETIME_accepts in Hexp.
      apply andb_true_iff in Hexp as [Hlo Hhi].
      apply Z.leb_le in Hlo. apply Z.leb_le in Hhi.
      pose proof (DATETIME_round_close t). lia.
  - intros q -> Hq. cbn [new_row expires_at]. unfold expires_param.
    cbn [truthy new_Date TimeClip] in *.
    apply Z.eqb_neq in Hq. rewrite Hq in *. cbn [negb] in *.
    destruct (Z.abs (Z.quot (Qnum q) (Z.pos (Qden q))) <=? 8640000000000000);
      [reflexivity | discriminate Hexp].
  - intros ->. reflexivity.
Qed.

Lemma create_new_record_witness :
  exists row,
    run (createShortUrl (host 1001 [str "abc"]) example_com
           (JSString the_end_of_2025)) [] =
      (Fulfilled (str "abc"), [] ++ [row]) /\
    short_code row = str "abc" /\
    original_url row = example_com /\
    click_count row = 0 /\
    created_at row = 1000 /\
    expires_at row = Some 1767225599000.
Proof.
  destruct (create_new_record (host 1001 [str "abc"]) example_com
              (JSString the_end_of_2025) [] eq_refl eq_refl)
    as [row [Hrun [Hcode [Hurl [Hclicks [Hcreated [_ [_ [Hexpires _]]]]]]]]].
  exists row. repeat split; try assumption.
  apply (Hexpires the_end_of_2025 1767225599000); try reflexivity.
  discriminate.
Defined.

(** Counterexample to C7 as stated. With the clock at 1001 ms the row is
    created at 1000; an expiration of 1001 ms is stored as 1000; and an
    expiration one millisecond before 1753 is refused, so that no record is
    persisted. *)
Lemma create_new_record_counterexample :
  run (createShortUrl (host 1001 [str "abc"]) example_com
         (JSNumber (Finite (1001 # 1)))) [] =
    (Fulfilled (str "abc"),
     [ {| short_code := str "abc"; original_url := example_com;
          click_count := 0; created_at := 1000;
          expires_at := Some 1000 |} ]) /\
  run (createShortUrl (host 1001 [str "abc"]) example_com
         (JSNumber (Finite (-6847804800001 # 1)))) [] =
    (Rejected (StoreError InvalidParameter), []) /\
  ~ new_record_keeps_exact_instants.
Proof.
  split; [reflexivity|]. split; [reflexivity|].
  intros Hclaim.
  destruct (Hclaim (host 1001 [str "abc"]) example_com
              (JSNumber (Finite (1001 # 1))) [] 1001)
    as [row [Hrun [_ [Hcreated _]]]]; try reflexivity.
  vm_compute in Hrun. inversion Hrun; subst row.
  vm_compute in Hcreated. discriminate Hcreated.
Qed.



(** C8, as the code has it. A short-code collision is not retried: when no
    row holds the URL and the generated code is taken, the call is rejected
    with the store's primary-key violation (or, when its expiration is not
    taken as a parameter, with that refusal), the table is unchanged, and
    the POST handler answers 500, whatever codes the generator would produce
    next. *)
Theorem create_collision_propagates
    (h : Host) (u : jsstring) (e : jsval) (db : table) :
  count_url (trim u) db = 0%nat ->
  existsb (has_code (shortid_generate h 0)) db = true ->
  run (createShortUrl h u e) db =
    (Rejected (StoreError (if expires_accepted h e
                           then PrimaryKeyViolation
                           else InvalidParameter)), db) /\
  (trim u <> [] -> isValidUrl h (trim u) = true ->
   run (post_api_shorten h (JSString u) e) db =
     (Fulfilled Json500FailedToShorten, db)).
Proof.
  intros Hnew Hcoll.
  assert (Hrej : forall w v, trim w = trim u ->
            run (createShortUrl h w v) db =
              (Rejected (StoreError (if expires_accepted h v
                                     then PrimaryKeyViolation
                                     else InvalidParameter)), db)).
  { intros w v Hw. rewrite run_createShortUrl, Hw.
    apply count_url_zero in Hnew. rewrite Hnew.
    unfold insert_accepted. now rewrite Hcoll. }
  split; [now apply Hrej|].
  intros Hne Hvalid. unfold post_api_shorten.
  destruct u as [|c u']; [now contradiction Hne|].
  cbn [truthy]. destruct (trim (c :: u')) as [|c' t'] eqn:Ht;
    [now contradiction Hne|].
  cbn [truthy negb orb]. rewrite Hvalid. cbn [negb].
  rewrite run_try_catch, run_bind, Hrej; [reflexivity|].
  rewrite <- Ht. apply trim_idempotent.
Qed.

Lemma create_collision_propagates_witness :
  run (createShortUrl (host 7 [str "abc"; str "xyz"])
         (str "https://rocq-prover.org") JSNull) [row_abc 0 None] =
    (Rejected (StoreError PrimaryKeyViolation), [row_abc 0 None]) /\
  run (post_api_shorten (host 7 [str "abc"; str "xyz"])
         (JSString (str "https://rocq-prover.org")) JSNull) [row_abc 0 None] =
    (Fulfilled Json500FailedToShorten, [row_abc 0 None]).
Proof.
  destruct (create_collision_propagates
              (host 7 [str "abc"; str "xyz"]) (str "https://rocq-prover.org")
              JSNull [row_abc 0 None]) as [Hcall Hpost].
  - reflexivity.
  - reflexivity.
  - split; [exact Hcall|]. apply Hpost.
    + vm_compute. discriminate.
    + reflexivity.
Defined.

(** C8, as stated, fails: a call whose first generated code is taken and
    whose second would be free is rejected, so no bound of two or more
    attempts is honoured. *)
Lemma collision_retry_counterexample :
  run (createShortUrl (host 7 [str "abc"; str "xyz"]) (str "https://rocq-prover.org")
         JSNull) [row_abc 0 None] =
    (Rejected (StoreError PrimaryKeyViolation), [row_abc 0 None]) /\
  existsb (has_code (str "xyz")) [row_abc 0 None] = false /\
  ~ collision_retry_bounded.
Proof.
  split; [reflexivity|]. split; [reflexivity|].
  intros [attempts [Hle Hretry]].
  destruct (Hretry (host 7 [str "abc"; str "xyz"])
              (str "https://rocq-prover.org") JSNull [row_abc 0 None])
    as [c [db' Hrun]].
  - reflexivity.
  - reflexivity.
  - exists 1%nat. split; [lia | reflexivity].
  - vm_compute in Hrun. discriminate.
Qed.

(* ================================================================== *)
(** ** Resolution and statistics *)

Lemma run_get_shortCode_live (h : Host) (db : table) (r : Row) :
  primary_key db = true -> In r db ->
  match expires_at r with Some T => Date_now h <= T | None => True end ->
  click_count r < INT_MAX ->
  run (getUrlByShortCode h (short_code r)) db = (Fulfilled r, db) /\
  run (get_shortCode h (short_code r)) db =
    (Fulfilled (Redirect302 (original_url r)), map (bump (short_code r)) db) /\
  run (getUrlStats (short_code r)) (map (bump (short_code r)) db) =
    (Fulfilled (clicked r), map (bump (short_code r)) db).
Proof.
  intros Hpk Hin Hlive Hroom.
  rewrite run_getUrlByShortCode, run_get_shortCode, run_getUrlStats.
  rewrite select_after_bump, select_by_code_unique by assumption.
  rewrite overflows_unique by assumption.
  assert (Hno : (INT_MAX <? click_count r + 1) = false)
    by (apply Z.ltb_ge; lia).
  rewrite Hno.
  destruct (expires_at r) as [T|]; [|now repeat split].
  assert (Hnot : (Date_now h >? T) = false)
    by (rewrite Z.gtb_ltb; apply Z.ltb_ge; lia).
  rewrite Hnot. now repeat split.
Qed.

Lemma run_get_shortCode_expired (h : Host) (db : table) (r : Row) (T : Z) :
  primary_key db = true -> In r db -> expires_at r = Some T ->
  T < Date_now h ->
  run (getUrlByShortCode h (short_code r)) db =
    (Rejected (ExpiredStatus T), db) /\
  run (get_shortCode h (short_code r)) db =
    (Fulfilled (Html410Expired T), db).
Proof.
  intros Hpk Hin HT Hpast.
  rewrite run_getUrlByShortCode, run_get_shortCode.
  rewrite select_by_code_unique by assumption. rewrite HT.
  assert (Hgt : (Date_now h >? T) = true)
    by (rewrite Z.gtb_ltb; apply Z.ltb_lt; lia).
  rewrite Hgt. now split.
Qed.

(** C2, as the code has it. For a row with [expires_at = T]: resolving at
    an instant up to and including [T] returns the row, redirects and adds
    one to its click count (the count being below the INT maximum);
    resolving at an instant after [T] is rejected as expired, answered 410
    with [T], on an unchanged table. *)
Theorem expiration_boundary
    (h : Host) (db : table) (r : Row) (T : Z) :
  primary_key db = true -> In r db -> expires_at r = Some T ->
  (Date_now h <= T -> click_count r < INT_MAX ->
   run (getUrlByShortCode h (short_code r)) db = (Fulfilled r, db) /\
   run (get_shortCode h (short_code r)) db =
     (Fulfilled (Redirect302 (original_url r)),
      map (bump (short_code r)) db) /\
   run (getUrlStats (short_code r)) (map (bump (short_code r)) db) =
     (Fulfilled (clicked r), map (bump (short_code r)) db)) /\
  (T < Date_now h ->
   run (getUrlByShortCode h (short_code r)) db =
     (Rejected (ExpiredStatus T), db) /\
   run (get_shortCode h (short_code r)) db =
     (Fulfilled (Html410Expired T), db)).
Proof.
  intros Hpk Hin HT. split.
  - intros Hnow Hroom. apply run_get_shortCode_live; try assumption.
    now rewrite HT.
  - intros Hpast. now apply run_get_shortCode_expired.
Qed.

Lemma expiration_boundary_witness :
  (run (getUrlByShortCode (host 1000 []) (str "abc"))
       [row_abc 0 (Some 1000)] =
     (Fulfilled (row_abc 0 (Some 1000)), [row_abc 0 (Some 1000)]) /\
   run (get_shortCode (host 1000 []) (str "abc")) [row_abc 0 (Some 1000)] =
     (Fulfilled (Redirect302 example_com),
      map (bump (str "abc")) [row_abc 0 (Some 1000)]) /\
   run (getUrlStats (str "abc"))
       (map (bump (str "abc")) [row_abc 0 (Some 1000)]) =
     (Fulfilled (clicked (row_abc 0 (Some 1000))),
      map (bump (str "abc")) [row_abc 0 (Some 1000)])) /\
  (run (getUrlByShortCode (host 1001 []) (str "abc"))
       [row_abc 0 (Some 1000)] =
     (Rejected (ExpiredStatus 1000), [row_abc 0 (Some 1000)]) /\
   run (get_shortCode (host 1001 []) (str "abc")) [row_abc 0 (Some 1000)] =
     (Fulfilled (Html410Expired 1000), [row_abc 0 (Some 1000)])).
Proof.
  split.
  - apply (proj1 (expiration_boundary (host 1000 []) [row_abc 0 (Some 1000)]
                    (row_abc 0 (Some 1000)) 1000
                    eq_refl (or_introl eq_refl) eq_refl)).
    + simpl. lia.
    + reflexivity.
  - apply (proj2 (expiration_boundary (host 1001 []) [row_abc 0 (Some 1000)]
                    (row_abc 0 (Some 1000)) 1000
                    eq_refl (or_introl eq_refl) eq_refl)).
    reflexivity.
Defined.

(** Counterexample to C2 as stated. At the instant [T] itself the code
    still resolves and counts the click; and strictly before [T] a row whose
    count is the INT maximum is answered 404 without a click. *)
Lemma expiration_boundary_counterexample :
  run (get_shortCode (host 1000 []) (str "abc")) [row_abc 0 (Some 1000)] =
    (Fulfilled (Redirect302 example_com), [row_abc 1 (Some 1000)]) /\
  run (get_shortCode (host 999 []) (str "abc"))
      [row_abc INT_MAX (Some 1000)] =
    (Fulfilled Html404NotFound, [row_abc INT_MAX (Some 1000)]) /\
  ~ expiration_boundary_closed_at_T.
Proof.
  split; [reflexivity|]. split; [reflexivity|].
  intros Hclaim.
  destruct (Hclaim (host 1000 []) [row_abc 0 (Some 1000)]
              (row_abc 0 (Some 1000)) 1000) as [_ Hexp];
    [reflexivity | now left | reflexivity |].
  specialize (Hexp (Z.le_refl 1000)). vm_compute in Hexp. discriminate.
Qed.

(** C3. A failed resolution is atomic: for a row whose [expires_at = T]
    lies in the past, the lookup is rejected with the expired status
    carrying [T], the handler answers 410 with [T], and the table is
    unchanged, so that the statistics still return the row as it was. *)
Theorem expired_resolution_changes_nothing
    (h : Host) (db : table) (r : Row) (T : Z) :
  primary_key db = true -> In r db -> expires_at r = Some T ->
  T < Date_now h ->
  run (getUrlByShortCode h (short_code r)) db =
    (Rejected (ExpiredStatus T), db) /\
  run (get_shortCode h (short_code r)) db =
    (Fulfilled (Html410Expired T), db) /\
  run (getUrlStats (short_code r)) (snd (run (get_shortCode h (short_code r)) db)) =
    (Fulfilled r, db).
Proof.
  intros Hpk Hin HT Hpast.
  destruct (run_get_shortCode_expired h db r T Hpk Hin HT Hpast) as [H1 H2].
  split; [exact H1|]. split; [exact H2|].
  rewrite H2. cbn [snd]. rewrite run_getUrlStats.
  now rewrite select_by_code_unique.
Qed.

Lemma expired_resolution_changes_nothing_witness :
  run (getUrlByShortCode (host 2000 []) (str "abc")) [row_abc 3 (Some 1000)] =
    (Rejected (ExpiredStatus 1000), [row_abc 3 (Some 1000)]) /\
  run (get_shortCode (host 2000 []) (str "abc")) [row_abc 3 (Some 1000)] =
    (Fulfilled (Html410Expired 1000), [row_abc 3 (Some 1000)]) /\
  run (getUrlStats (str "abc"))
      (snd (run (get_shortCode (host 2000 []) (str "abc"))
              [row_abc 3 (Some 1000)])) =
    (Fulfilled (row_abc 3 (Some 1000)), [row_abc 3 (Some 1000)]).
Proof.
  apply (expired_resolution_changes_nothing (host 2000 [])
           [row_abc 3 (Some 1000)] (row_abc 3 (Some 1000)) 1000).
  - reflexivity.
  - simpl. now left.
  - reflexivity.
  - simpl. lia.
Defined.

(** C6. An unknown code is not found by the lookup, the redirect handler,
    the statistics function and the statistics handler, and the table is
    unchanged; a code that is in the table gets its full row from the
    statistics, with no regard to the clock or to [expires_at]. *)
Theorem unknown_code_not_found_and_stats_ignore_expiration
    (h : Host) (c : jsstring) (db : table) :
  (existsb (has_code c) db = false ->
   run (getUrlByShortCode h c) db = (Rejected NotFoundStatus, db) /\
   run (get_shortCode h c) db = (Fulfilled Html404NotFound, db) /\
   run (getUrlStats c) db = (Rejected ErrorNotFound, db) /\
   run (get_api_stats c) db = (Fulfilled Json404NotFound, db)) /\
  (forall r, primary_key db = true -> In r db -> short_code r = c ->
   run (getUrlStats c) db = (Fulfilled r, db) /\
   run (get_api_stats c) db = (Fulfilled (Json200Stats r), db)).
Proof.
  split.
  - intros Hnone. apply filter_none in Hnone.
    rewrite run_getUrlByShortCode, run_get_shortCode, run_getUrlStats,
      run_get_api_stats, Hnone.
    now repeat split.
  - intros r Hpk Hin <-.
    rewrite run_getUrlStats, run_get_api_stats.
    rewrite select_by_code_unique by assumption. now split.
Qed.

Lemma unknown_code_not_found_and_stats_ignore_expiration_witness :
  (existsb (has_code (str "abc")) [row_abc 3 (Some 1000)] = true) /\
  (existsb (has_code (str "nope")) [row_abc 3 (Some 1000)] = false ->
   run (getUrlByShortCode (host 2000 []) (str "nope"))
       [row_abc 3 (Some 1000)] =
     (Rejected NotFoundStatus, [row_abc 3 (Some 1000)]) /\
   run (get_shortCode (host 2000 []) (str "nope")) [row_abc 3 (Some 1000)] =
     (Fulfilled Html404NotFound, [row_abc 3 (Some 1000)]) /\
   run (getUrlStats (str "nope")) [row_abc 3 (Some 1000)] =
     (Rejected ErrorNotFound, [row_abc 3 (Some 1000)]) /\
   run (get_api_stats (str "nope")) [row_abc 3 (Some 1000)] =
     (Fulfilled Json404NotFound, [row_abc 3 (Some 1000)])) /\
  (run (getUrlStats (str "abc")) [row_abc 3 (Some 1000)] =
     (Fulfilled (row_abc 3 (Some 1000)), [row_abc 3 (Some 1000)]) /\
   run (get_api_stats (str "abc")) [row_abc 3 (Some 1000)] =
     (Fulfilled (Json200Stats (row_abc 3 (Some 1000))),
      [row_abc 3 (Some 1000)])).
Proof.
  split; [reflexivity|].
  split.
  - apply (unknown_code_not_found_and_stats_ignore_expiration
             (host 2000 []) (str "nope") [row_abc 3 (Some 1000)]).
  - apply (proj2 (unknown_code_not_found_and_stats_ignore_expiration
                    (host 2000 []) (str "abc") [row_abc 3 (Some 1000)])
             (row_abc 3 (Some 1000))).
    + reflexivity.
    + simpl. now left.
    + reflexivity.
Defined.

Lemma overflows_none (c : jsstring) (db : table) :
  existsb (has_code c) db = false -> existsb (overflows c) db = false.
Proof.
  induction db as [|y db IH]; simpl; [reflexivity|].
  intros Hc. apply orb_false_iff in Hc as [Hy Hc].
  unfold overflows at 1. rewrite Hy. simpl. now apply IH.
Qed.

(** C4, as the code has it. Round trip of a new record: when no row holds
    the trimmed URL, the generated code is free and no [expiresAt] is
    given, the call returns the code of a new row for the trimmed URL with
    no click; resolving that code at any instant redirects to the trimmed
    URL, and the row then has a click count of 1. *)
Theorem round_trip_of_new_record
    (h h' : Host) (u : jsstring) (e : jsval) (db : table) :
  e = JSUndefined \/ e = JSNull ->
  count_url (trim u) db = 0%nat ->
  existsb (has_code (shortid_generate h 0)) db = false ->
  exists row db1 db2,
    run (createShortUrl h u e) db = (Fulfilled (short_code row), db1) /\
    original_url row = trim u /\ click_count row = 0 /\
    run (getUrlByShortCode h' (short_code row)) db1 = (Fulfilled row, db1) /\
    run (get_shortCode h' (short_code row)) db1 =
      (Fulfilled (Redirect302 (trim u)), db2) /\
    run (getUrlStats (short_code row)) db2 = (Fulfilled (clicked row), db2) /\
    original_url (clicked row) = trim u /\
    click_count (clicked row) = 1.
Proof.
  intros Habsent Hnew Hfresh.
  assert (Hpar : expires_param h e = None) by (destruct Habsent; now subst).
  assert (Hacc : insert_accepted h e db = true)
    by (unfold insert_accepted, expires_accepted; now rewrite Hfresh, Hpar).
  set (row := new_row h u e).
  assert (Hexp : expires_at row = None) by (simpl; now rewrite Hpar).
  exists row, (db ++ [row]), (db ++ [clicked row]).
  apply count_url_zero in Hnew.
  assert (Hsel : filter (has_code (short_code row)) (db ++ [row]) = [row])
    by now apply select_snoc_fresh.
  assert (Hbump : map (bump (short_code row)) (db ++ [row]) =
                  db ++ [clicked row]).
  { rewrite map_app, bump_other by assumption. cbn [map].
    unfold bump. now rewrite has_code_same. }
  split; [|split; [reflexivity|split; [reflexivity|split; [|split; [|split]]]]].
  - rewrite run_createShortUrl, Hnew, Hacc. reflexivity.
  - rewrite run_getUrlByShortCode, Hsel, Hexp. reflexivity.
  - rewrite run_get_shortCode, Hsel, Hexp, Hbump.
    rewrite existsb_app, overflows_none by assumption.
    cbn [existsb orb]. unfold overflows.
    replace (INT_MAX <? click_count row + 1) with false by reflexivity.
    now rewrite andb_false_r.
  - rewrite run_getUrlStats.
    now rewrite (select_snoc_fresh (short_code row) db (clicked row)).
  - now split.
Qed.

Lemma round_trip_of_new_record_witness :
  exists row db1 db2,
    run (createShortUrl (host 5 [str "abc"]) (str " https://example.com ")
           JSUndefined) [] = (Fulfilled (short_code row), db1) /\
    original_url row = trim (str " https://example.com ") /\
    click_count row = 0 /\
    run (getUrlByShortCode (host 6 []) (short_code row)) db1 =
      (Fulfilled row, db1) /\
    run (get_shortCode (host 6 []) (short_code row)) db1 =
      (Fulfilled (Redirect302 (trim (str " https://example.com "))), db2) /\
    run (getUrlStats (short_code row)) db2 = (Fulfilled (clicked row), db2) /\
    original_url (clicked row) = trim (str " https://example.com ") /\
    click_count (clicked row) = 1.
Proof.
  apply (round_trip_of_new_record (host 5 [str "abc"]) (host 6 [])
           (str " https://example.com ") JSUndefined []).
  - now left.
  - reflexivity.
  - reflexivity.
Defined.

(** Counterexample to C4 as stated. For a URL that already has a row, the
    call returns that row's code; if the row has expired the resolution is
    answered 410, and if it has not the click count goes from 5 to 6. *)
Lemma round_trip_counterexample :
  run (createShortUrl (host 2000 [str "xyz"]) example_com JSUndefined)
      [row_abc 5 (Some 1000)] =
    (Fulfilled (str "abc"), [row_abc 5 (Some 1000)]) /\
  run (get_shortCode (host 2000 []) (str "abc")) [row_abc 5 (Some 1000)] =
    (Fulfilled (Html410Expired 1000), [row_abc 5 (Some 1000)]) /\
  run (createShortUrl (host 2000 [str "xyz"]) example_com JSUndefined)
      [row_abc 5 None] =
    (Fulfilled (str "abc"), [row_abc 5 None]) /\
  run (get_shortCode (host 2000 []) (str "abc")) [row_abc 5 None] =
    (Fulfilled (Redirect302 example_com), [row_abc 6 None]) /\
  ~ round_trip_for_any_returned_code.
Proof.
  repeat (split; [reflexivity|]).
  intros Hclaim.
  destruct (Hclaim (host 2000 [str "xyz"]) (host 2000 []) example_com
              (str "abc") [row_abc 5 (Some 1000)] [row_abc 5 (Some 1000)])
    as [row [db2 [Hres _]]]; [reflexivity | reflexivity |].
  vm_compute in Hres. discriminate.
Qed.

(* ================================================================== *)
(** ** Two creations in flight *)

Lemma step_createShortUrl (h : Host) (u : jsstring) (e : jsval) (db : table) :
  step (createShortUrl h u e) db =
  (match filter (has_url (trim u)) db with
   | r :: _ => Resolve (short_code r)
   | [] => create_insert h (trim u) e
   end, db).
Proof.
  unfold createShortUrl, create_insert. rewrite expires_param_default.
  simpl. now destruct (filter (has_url (trim u)) db).
Qed.

Lemma exec_insert_accepted (h : Host) (u : jsstring) (e : jsval)
    (db : table) :
  insert_accepted h e db = true ->
  insert_row (shortid_generate h 0) (trim u) (ValidDate (Date_now h))
    (expires_param h e) db =
  (inr tt, db ++ [new_row h u e]).
Proof.
  unfold insert_accepted, expires_accepted, new_row, insert_row. intros H.
  apply andb_true_iff in H as [Hfresh Hdate].
  apply negb_true_iff in Hfresh.
  cbn [DateTime_param_ok] in *. rewrite (clock_in_range h), Hdate, Hfresh.
  cbn [andb negb]. now destruct (expires_param h e) as [[t|]|].
Qed.

Lemma step_create_insert (h : Host) (u : jsstring) (e : jsval) (db : table) :
  insert_accepted h e db = true ->
  step (create_insert h (trim u) e) db =
  (Resolve (shortid_generate h 0), db ++ [new_row h u e]).
Proof.
  intros H. unfold create_insert. simpl.
  now rewrite (exec_insert_accepted h u e db H).
Qed.

Lemma run_create_insert (h : Host) (u : jsstring) (e : jsval) (db : table) :
  insert_accepted h e db = true ->
  run (create_insert h (trim u) e) db =
  (Fulfilled (shortid_generate h 0), db ++ [new_row h u e]).
Proof.
  intros H. unfold create_insert. simpl.
  now rewrite (exec_insert_accepted h u e db H).
Qed.

(** Running a request after one of its turns is running it. *)
Lemma run_after_step {A} (p : async A) (db : table) :
  run (fst (step p db)) (snd (step p db)) = run p db.
Proof.
  destruct p as [a|e|R q k]; try reflexivity.
  simpl. now destruct (exec q db).
Qed.

(** Once the first request is done, the outcome is that of running the
    second, whatever the schedule; and the other way round. *)
Lemma interleave_first_done {A B} (sched : list turn) (a : A) (q : async B) :
  forall db,
    interleave sched (Resolve a) q db =
    (Fulfilled a, fst (run q db), snd (run q db)).
Proof.
  revert q. induction sched as [|t sched IH]; intros q db.
  - cbn [interleave run]. now destruct (run q db).
  - destruct t; cbn [interleave step].
    + apply IH.
    + pose proof (run_after_step q db) as Hs.
      destruct (step q db) as [q' db']. cbn [fst snd] in Hs.
      now rewrite IH, Hs.
Qed.

Lemma interleave_second_done {A B} (sched : list turn) (p : async A) (b : B) :
  forall db,
    interleave sched p (Resolve b) db =
    (fst (run p db), Fulfilled b, snd (run p db)).
Proof.
  revert p. induction sched as [|t sched IH]; intros p db.
  - cbn [interleave run]. now destruct (run p db).
  - destruct t; cbn [interleave step].
    + pose proof (run_after_step p db) as Hs.
      destruct (step p db) as [p' db']. cbn [fst snd] in Hs.
      now rewrite IH, Hs.
    + apply IH.
Qed.

Section Race.

Variables (h1 h2 : Host) (u1 u2 : jsstring) (e1 e2 : jsval) (db0 : table).

Hypothesis same_url : trim u1 = trim u2.
Hypothesis no_row : count_url (trim u1) db0 = 0%nat.
Hypothesis accepted1 : insert_accepted h1 e1 db0 = true.
Hypothesis accepted2 : insert_accepted h2 e2 db0 = true.
Hypothesis codes_differ : shortid_generate h1 0 <> shortid_generate h2 0.

Lemma race_lookup_empty (u : jsstring) :
  trim u = trim u1 -> filter (has_url (trim u)) db0 = [].
Proof. intros ->. now apply count_url_zero. Qed.

Lemma race_lookup_after (u : jsstring) (r : Row) :
  trim u = trim u1 -> original_url r = trim u1 ->
  filter (has_url (trim u)) (db0 ++ [r]) = [r].
Proof.
  intros Hu Hr. rewrite filter_app, race_lookup_empty by assumption.
  simpl. rewrite Hu. apply has_url_eq in Hr. now rewrite Hr.
Qed.

Lemma race_accepted_after (h : Host) (e : jsval) (r : Row) :
  insert_accepted h e db0 = true ->
  short_code r <> shortid_generate h 0 ->
  insert_accepted h e (db0 ++ [r]) = true.
Proof.
  unfold insert_accepted. intros H Hne.
  apply andb_true_iff in H as [Hfresh Hdate].
  rewrite Hdate, andb_true_r. apply negb_true_iff in Hfresh.
  rewrite existsb_app, Hfresh. simpl. rewrite orb_false_r.
  apply negb_true_iff. now apply str_eqb_neq.
Qed.

Lemma race_run_create_empty (h : Host) (u : jsstring) (e : jsval) :
  trim u = trim u1 -> insert_accepted h e db0 = true ->
  run (createShortUrl h u e) db0 =
  (Fulfilled (shortid_generate h 0), db0 ++ [new_row h u e]).
Proof.
  intros Hu Hacc. rewrite run_createShortUrl.
  now rewrite race_lookup_empty, Hacc.
Qed.

Lemma race_run_create_found (h : Host) (u : jsstring) (e : jsval) (r : Row) :
  trim u = trim u1 -> original_url r = trim u1 ->
  run (createShortUrl h u e) (db0 ++ [r]) =
  (Fulfilled (short_code r), db0 ++ [r]).
Proof.
  intros Hu Hr. rewrite run_createShortUrl.
  now rewrite race_lookup_after.
Qed.

Lemma race_count_one (r : Row) :
  original_url r = trim u1 -> count_url (trim u1) (db0 ++ [r]) = 1%nat.
Proof.
  intros Hr. rewrite count_url_snoc, no_row.
  apply has_url_eq in Hr. now rewrite Hr.
Qed.

Lemma race_count_two (r r' : Row) :
  original_url r = trim u1 -> original_url r' = trim u1 ->
  count_url (trim u1) ((db0 ++ [r]) ++ [r']) = 2%nat.
Proof.
  intros Hr Hr'. rewrite count_url_snoc, race_count_one by assumption.
  apply has_url_eq in Hr'. now rewrite Hr'.
Qed.


Lemma race_url2 : trim u2 = trim u1.
Proof. symmetry. exact same_url. Qed.

Lemma race_accepted12 :
  insert_accepted h1 e1 (db0 ++ [new_row h2 u2 e2]) = true.
Proof.
  apply race_accepted_after; [exact accepted1|].
  intros E. apply codes_differ. symmetry. exact E.
Qed.

Lemma race_accepted21 :
  insert_accepted h2 e2 (db0 ++ [new_row h1 u1 e1]) = true.
Proof. apply race_accepted_after; [exact accepted2 | exact codes_differ]. Qed.

Lemma race_first_looks :
  step (createShortUrl h1 u1 e1) db0 = (create_insert h1 (trim u1) e1, db0).
Proof.
  rewrite step_createShortUrl.
  now rewrite (race_lookup_empty u1 eq_refl).
Qed.

Lemma race_second_looks :
  step (createShortUrl h2 u2 e2) db0 = (create_insert h2 (trim u2) e2, db0).
Proof.
  rewrite step_createShortUrl.
  now rewrite (race_lookup_empty u2 race_url2).
Qed.

(** The first request has both its turns before the second looks up. *)
Lemma race_first_wins (sched : list turn) :
  interleave sched
    (Resolve (shortid_generate h1 0)) (createShortUrl h2 u2 e2)
    (db0 ++ [new_row h1 u1 e1]) =
  (Fulfilled (shortid_generate h1 0), Fulfilled (shortid_generate h1 0),
   db0 ++ [new_row h1 u1 e1]).
Proof.
  rewrite interleave_first_done.
  now rewrite (race_run_create_found h2 u2 e2 (new_row h1 u1 e1)
                 race_url2 eq_refl).
Qed.

Lemma race_second_wins (sched : list turn) :
  interleave sched
    (createShortUrl h1 u1 e1) (Resolve (shortid_generate h2 0))
    (db0 ++ [new_row h2 u2 e2]) =
  (Fulfilled (shortid_generate h2 0), Fulfilled (shortid_generate h2 0),
   db0 ++ [new_row h2 u2 e2]).
Proof.
  rewrite interleave_second_done.
  now rewrite (race_run_create_found h1 u1 e1 (new_row h2 u2 e2)
                 eq_refl race_url2).
Qed.

(** Both have looked up; the next turn decides whose row is first. *)
Lemma race_both_insert (sched : list turn) :
  interleave sched
    (create_insert h1 (trim u1) e1) (create_insert h2 (trim u2) e2) db0 =
  (Fulfilled (shortid_generate h1 0), Fulfilled (shortid_generate h2 0),
   match hd First sched with
   | First => (db0 ++ [new_row h1 u1 e1]) ++ [new_row h2 u2 e2]
   | Second => (db0 ++ [new_row h2 u2 e2]) ++ [new_row h1 u1 e1]
   end).
Proof.
  destruct sched as [|t sched]; [|destruct t]; cbn [interleave hd].
  - rewrite (run_create_insert h1 u1 e1 db0 accepted1).
    now rewrite (run_create_insert h2 u2 e2 _ race_accepted21).
  - rewrite (step_create_insert h1 u1 e1 db0 accepted1).
    rewrite interleave_first_done.
    now rewrite (run_create_insert h2 u2 e2 _ race_accepted21).
  - rewrite (step_create_insert h2 u2 e2 db0 accepted2).
    rewrite interleave_second_done.
    now rewrite (run_create_insert h1 u1 e1 _ race_accepted12).
Qed.

Lemma race_outcome (sched : list turn) :
  interleave sched (createShortUrl h1 u1 e1) (createShortUrl h2 u2 e2) db0 =
  if lookups_before_inserts sched
  then (Fulfilled (shortid_generate h1 0), Fulfilled (shortid_generate h2 0),
        match third_turn sched with
        | First => (db0 ++ [new_row h1 u1 e1]) ++ [new_row h2 u2 e2]
        | Second => (db0 ++ [new_row h2 u2 e2]) ++ [new_row h1 u1 e1]
        end)
  else match first_turn sched with
       | First =>
           (Fulfilled (shortid_generate h1 0),
            Fulfilled (shortid_generate h1 0), db0 ++ [new_row h1 u1 e1])
       | Second =>
           (Fulfilled (shortid_generate h2 0),
            Fulfilled (shortid_generate h2 0), db0 ++ [new_row h2 u2 e2])
       end.
Proof.
  destruct sched as [|t1 [|t2 rest]].
  - cbn [interleave].
    rewrite (race_run_create_empty h1 u1 e1 eq_refl accepted1).
    now rewrite (race_run_create_found h2 u2 e2 (new_row h1 u1 e1)
                   race_url2 eq_refl).
  - destruct t1; cbn [interleave].
    + rewrite race_first_looks. cbn [interleave].
      rewrite (run_create_insert h1 u1 e1 db0 accepted1).
      now rewrite (race_run_create_found h2 u2 e2 (new_row h1 u1 e1)
                     race_url2 eq_refl).
    + rewrite race_second_looks. cbn [interleave].
      rewrite (race_run_create_empty h1 u1 e1 eq_refl accepted1).
      now rewrite (run_create_insert h2 u2 e2 _ race_accepted21).
  - destruct t1, t2; cbn [interleave].
    + rewrite race_first_looks. cbn [interleave].
      rewrite (step_create_insert h1 u1 e1 db0 accepted1).
      now rewrite race_first_wins.
    + rewrite race_first_looks. cbn [interleave].
      rewrite race_second_looks, race_both_insert.
      unfold lookups_before_inserts, third_turn, turns.
      now destruct rest as [|[] rest].
    + rewrite race_second_looks. cbn [interleave].
      rewrite race_first_looks, race_both_insert.
      unfold lookups_before_inserts, third_turn, turns.
      now destruct rest as [|[] rest].
    + rewrite race_second_looks. cbn [interleave].
      rewrite (step_create_insert h2 u2 e2 db0 accepted2).
      now rewrite race_second_wins.
Qed.

End Race.

(** C9, as the code has it. Two requests for the same new URL in flight,
    with different generated codes that the store accepts. Neither is
    rejected under any schedule of the store's answers. When the first two
    answers go to the same request, so that its INSERT is answered before
    the other's lookup, both callers get that request's code and one row
    holds the URL. When the first two answers go to different requests, so
    that both lookups are answered before either INSERT, both INSERTs
    succeed: each caller gets its own code and two rows hold the URL, in the
    order of the INSERTs. No conflict is detected. *)
Theorem duplicate_race_outcomes
    (h1 h2 : Host) (u1 u2 : jsstring) (e1 e2 : jsval) (db : table)
    (sched : list turn) :
  trim u1 = trim u2 ->
  count_url (trim u1) db = 0%nat ->
  insert_accepted h1 e1 db = true ->
  insert_accepted h2 e2 db = true ->
  shortid_generate h1 0 <> shortid_generate h2 0 ->
  (lookups_before_inserts sched = false ->
   exists winner,
     interleave sched (createShortUrl h1 u1 e1) (createShortUrl h2 u2 e2) db =
       (Fulfilled (short_code winner), Fulfilled (short_code winner),
        db ++ [winner]) /\
     winner = match first_turn sched with
              | First => new_row h1 u1 e1
              | Second => new_row h2 u2 e2
              end /\
     count_url (trim u1) (db ++ [winner]) = 1%nat) /\
  (lookups_before_inserts sched = true ->
   exists db',
     interleave sched (createShortUrl h1 u1 e1) (createShortUrl h2 u2 e2) db =
       (Fulfilled (shortid_generate h1 0), Fulfilled (shortid_generate h2 0),
        db') /\
     db' = match third_turn sched with
           | First => (db ++ [new_row h1 u1 e1]) ++ [new_row h2 u2 e2]
           | Second => (db ++ [new_row h2 u2 e2]) ++ [new_row h1 u1 e1]
           end /\
     count_url (trim u1) db' = 2%nat).
Proof.
  intros Hurl Hnew Hacc1 Hacc2 Hdiff.
  assert (Hu2 : trim u2 = trim u1) by (symmetry; exact Hurl).
  pose proof (race_outcome h1 h2 u1 u2 e1 e2 db Hurl Hnew Hacc1 Hacc2 Hdiff
                sched) as Hout.
  split; intros Hkind; rewrite Hkind in Hout.
  - destruct (first_turn sched).
    + exists (new_row h1 u1 e1). split; [exact Hout|]. split; [reflexivity|].
      now apply race_count_one.
    + exists (new_row h2 u2 e2). split; [exact Hout|]. split; [reflexivity|].
      now apply race_count_one.
  - eexists. split; [exact Hout|]. split; [reflexivity|].
    destruct (third_turn sched); now apply race_count_two.
Qed.

Lemma duplicate_race_outcomes_witness :
  interleave [Second; First; Second; Second; First]
    (createShortUrl (host 0 [str "abc"]) example_com JSNull)
    (createShortUrl (host 7 [str "xyz"]) (str " https://example.com ")
       JSNull) [] =
    (Fulfilled (str "abc"), Fulfilled (str "xyz"),
     [row_xyz 7; row_abc 0 None]) /\
  count_url (trim example_com) [row_xyz 7; row_abc 0 None] = 2%nat /\
  interleave [First; First; Second]
    (createShortUrl (host 0 [str "abc"]) example_com JSNull)
    (createShortUrl (host 7 [str "xyz"]) (str " https://example.com ")
       JSNull) [] =
    (Fulfilled (str "abc"), Fulfilled (str "abc"), [row_abc 0 None]).
Proof.
  destruct (duplicate_race_outcomes (host 0 [str "abc"]) (host 7 [str "xyz"])
              example_com (str " https://example.com ") JSNull JSNull []
              [Second; First; Second; Second; First])
    as [_ Htwo]; try reflexivity.
  { vm_compute. discriminate. }
  destruct (duplicate_race_outcomes (host 0 [str "abc"]) (host 7 [str "xyz"])
              example_com (str " https://example.com ") JSNull JSNull []
              [First; First; Second])
    as [Hone _]; try reflexivity.
  { vm_compute. discriminate. }
  destruct (Htwo eq_refl) as [db' [Hrun [Hdb Hcount]]].
  destruct (Hone eq_refl) as [winner [Hrun1 [Hw _]]].
  subst db' winner.
  split; [exact Hrun|]. split; [exact Hcount | exact Hrun1].
Defined.

(** Counterexample to C9 as stated. When both lookups are answered before
    either INSERT, both INSERTs succeed: the callers get different codes and
    two rows hold the URL. *)
Lemma duplicate_race_counterexample :
  interleave [First; Second]
    (createShortUrl (host 0 [str "abc"]) example_com JSNull)
    (createShortUrl (host 7 [str "xyz"]) example_com JSNull) [] =
    (Fulfilled (str "abc"), Fulfilled (str "xyz"),
     [row_abc 0 None; row_xyz 7]) /\
  count_url example_com [row_abc 0 None; row_xyz 7] = 2%nat /\
  ~ duplicate_race_one_record.
Proof.
  split; [reflexivity|]. split; [reflexivity|].
  intros Hclaim.
  destruct (Hclaim [First; Second] (host 0 [str "abc"]) (host 7 [str "xyz"])
              example_com JSNull JSNull [])
    as [c [db' [Hrun _]]]; try reflexivity.
  - vm_compute. discriminate.
  - vm_compute in Hrun. congruence.
Qed.

(* ================================================================== *)
(** ** POST /api/shorten *)

Lemma post_api_shorten_cases (h : Host) (url : jsstring) (e : jsval) :
  post_api_shorten h (JSString url) e =
  match trim url with
  | [] => Resolve Json400InvalidUrl
  | _ :: _ =>
      if isValidUrl h (trim url)
      then try_catch
             (shortCode <- createShortUrl h (trim url) (js_or e JSNull) ;;
              Resolve (Json200Shorten (BASE_URL h ++ str "/" ++ shortCode)
                         shortCode))
             (fun _ => Resolve Json500FailedToShorten)
      else Resolve Json400InvalidUrl
  end.
Proof.
  unfold post_api_shorten. destruct url as [|c u]; [reflexivity|].
  cbn [truthy]. destruct (trim (c :: u)) as [|c' t]; [reflexivity|].
  cbn [truthy negb orb].
  now destruct (isValidUrl h (c' :: t)).
Qed.

Lemma run_createShortUrl_trimmed (h : Host) (u : jsstring) (e : jsval)
    (db : table) :
  run (createShortUrl h (trim u) e) db = run (createShortUrl h u e) db.
Proof.
  rewrite !run_createShortUrl. unfold new_row.
  now rewrite trim_idempotent.
Qed.

(** X1. A URL that is blank after trimming, or that the URL parser
    refuses, is answered 400 by a handler that sends nothing to the
    store. *)
Theorem post_refuses_blank_or_unparseable
    (h : Host) (url : jsstring) (e : jsval) :
  trim url = [] \/ isValidUrl h (trim url) = false ->
  post_api_shorten h (JSString url) e = Resolve Json400InvalidUrl /\
  forall db, run (post_api_shorten h (JSString url) e) db =
             (Fulfilled Json400InvalidUrl, db).
Proof.
  intros H.
  assert (Heq : post_api_shorten h (JSString url) e = Resolve Json400InvalidUrl).
  { rewrite post_api_shorten_cases.
    destruct H as [-> | Hbad]; [reflexivity|].
    rewrite Hbad. now destruct (trim url). }
  split; [exact Heq|]. intros db. now rewrite Heq.
Qed.

Lemma post_refuses_blank_or_unparseable_witness :
  post_api_shorten (host 1 [str "abc"]) (JSString (str "   ")) JSNull =
    Resolve Json400InvalidUrl /\
  forall db, run (post_api_shorten (host 1 [str "abc"]) (JSString (str "   ")) JSNull) db =
             (Fulfilled Json400InvalidUrl, db).
Proof.
  apply (post_refuses_blank_or_unparseable (host 1 [str "abc"]) (str "   ")
           JSNull).
  left. reflexivity.
Defined.

(** X2. For a URL that is not blank and parses, the handler answers what
    [createShortUrl(url, expires_at || null)] does: 200 with the code and
    BASE_URL/code when it returns a code, 500 when it throws, and the table
    is the one the call leaves. *)
Theorem post_answers_as_createShortUrl
    (h : Host) (url : jsstring) (e : jsval) (db : table) :
  trim url <> [] -> isValidUrl h (trim url) = true ->
  run (post_api_shorten h (JSString url) e) db =
  match run (createShortUrl h url (js_or e JSNull)) db with
  | (Fulfilled c, db') =>
      (Fulfilled (Json200Shorten (BASE_URL h ++ str "/" ++ c) c), db')
  | (Rejected _, db') => (Fulfilled Json500FailedToShorten, db')
  end.
Proof.
  intros Hne Hvalid. rewrite post_api_shorten_cases, Hvalid.
  destruct (trim url) as [|c t] eqn:Ht; [now contradiction Hne|].
  rewrite <- Ht, run_try_catch, run_bind, run_createShortUrl_trimmed.
  now destruct (run (createShortUrl h url (js_or e JSNull)) db) as [[a|err] db'].
Qed.

Lemma post_answers_as_createShortUrl_witness :
  run (post_api_shorten (host 0 [str "abc"]) (JSString (str " https://example.com "))
         (JSString [])) [] =
    (Fulfilled (Json200Shorten (str "http://localhost:5000/abc") (str "abc")),
     [row_abc 0 None]).
Proof.
  rewrite (post_answers_as_createShortUrl (host 0 [str "abc"])
             (str " https://example.com ") (JSString []) []).
  - reflexivity.
  - vm_compute. discriminate.
  - reflexivity.
Defined.

(** X3. The handler depends on the URL only through its trimmed value:
    whitespace around the URL changes neither the requests it sends nor
    its answer. *)
Theorem post_ignores_surrounding_whitespace
    (h : Host) (l u r : jsstring) (e : jsval) :
  forallb isWhiteSpace l = true -> forallb isWhiteSpace r = true ->
  post_api_shorten h (JSString (l ++ u ++ r)) e = post_api_shorten h (JSString u) e.
Proof.
  intros Hl Hr. rewrite !post_api_shorten_cases.
  now rewrite (trim_surrounded l u r Hl Hr).
Qed.

Lemma post_ignores_surrounding_whitespace_witness :
  post_api_shorten (host 9 [str "abc"]) (JSString (str "  https://example.com  ")) JSNull =
  post_api_shorten (host 9 [str "abc"]) (JSString example_com) JSNull.
Proof.
  exact (post_ignores_surrounding_whitespace (host 9 [str "abc"])
           (str "  ") example_com (str "  ") JSNull eq_refl eq_refl).
Defined.

(* ================================================================== *)
(** ** What the handlers answer *)

Lemma filter_head_in {A} (f : A -> bool) (l : list A) (x : A) (rest : list A) :
  filter f l = x :: rest -> In x l /\ f x = true.
Proof.
  intros H. apply filter_In. rewrite H. now left.
Qed.

Lemma createShortUrl_table (h : Host) (u : jsstring) (e : jsval) (db : table) :
  snd (run (createShortUrl h u e) db) = db \/
  (snd (run (createShortUrl h u e) db) = db ++ [new_row h u e] /\
   count_url (trim u) db = 0%nat /\
   existsb (has_code (shortid_generate h 0)) db = false).
Proof.
  rewrite run_createShortUrl.
  destruct (filter (has_url (trim u)) db) as [|r rest] eqn:Hsel; [|now left].
  destruct (insert_accepted h e db) eqn:Hacc; [|now left].
  right. split; [reflexivity|]. split.
  - now apply count_url_zero.
  - now apply insert_accepted_fresh in Hacc.
Qed.

Lemma post_api_shorten_table (h : Host) (url e : jsval) (db : table) :
  snd (run (post_api_shorten h url e) db) = db \/
  exists s, snd (run (post_api_shorten h url e) db) =
            snd (run (createShortUrl h s (js_or e JSNull)) db).
Proof.
  destruct url as [| |b|n|s];
    try (left; unfold post_api_shorten;
         now destruct (truthy _)).
  rewrite post_api_shorten_cases.
  destruct (trim s) as [|c t] eqn:Ht; [now left|].
  destruct (isValidUrl h (c :: t)); [|now left].
  right. exists s.
  rewrite <- Ht, run_try_catch, run_bind, run_createShortUrl_trimmed.
  now destruct (run (createShortUrl h s (js_or e JSNull)) db)
    as [[a|err] db'].
Qed.

Lemma get_shortCode_outcomes (h : Host) (c : jsstring) (db : table) :
  run (get_shortCode h c) db = (Fulfilled Html404NotFound, db) \/
  (exists r T, In r db /\ short_code r = c /\ expires_at r = Some T /\
               T < Date_now h /\
               run (get_shortCode h c) db = (Fulfilled (Html410Expired T), db)) \/
  (exists r, In r db /\ short_code r = c /\ expired_at h r = false /\
             existsb (overflows c) db = false /\
             run (get_shortCode h c) db =
               (Fulfilled (Redirect302 (original_url r)), map (bump c) db)).
Proof.
  rewrite run_get_shortCode.
  destruct (filter (has_code c) db) as [|row rest] eqn:Hsel; [now left|].
  apply filter_head_in in Hsel as [Hin Hc]. apply has_code_eq in Hc.
  unfold expired_at.
  destruct (expires_at row) as [T|] eqn:HT.
  - destruct (Date_now h >? T) eqn:Hgt.
    + right. left. exists row, T. repeat split; try assumption.
      rewrite Z.gtb_ltb in Hgt. now apply Z.ltb_lt.
    + destruct (existsb (overflows c) db) eqn:Hov; [now left|].
      right. right. exists row. rewrite HT. now repeat split.
  - destruct (existsb (overflows c) db) eqn:Hov; [now left|].
    right. right. exists row. rewrite HT. now repeat split.
Qed.

(** X4. What each handler answers. POST /api/shorten throws a TypeError
    out of the handler, before any request to the store, when [url] is a
    truthy value that is not a string; for any other [url] it answers 400
    or 500 on an unchanged table, or 200 with a code and BASE_URL/code. The
    statistics let no error escape: they answer 404 or the row of that code
    and never change the table. GET /:shortCode lets no error escape: it
    answers 404 or 410 on an unchanged table, or redirects to the URL of a
    row with that code after counting one click on it. *)
Theorem what_each_handler_answers
    (h : Host) (url : jsval) (c : jsstring) (e : jsval) (db : table) :
  ((truthy url = true /\ (forall s, url <> JSString s) /\
    post_api_shorten h url e = Reject TypeError) \/
   ((truthy url = false \/ exists s, url = JSString s) /\
    exists a db',
      run (post_api_shorten h url e) db = (Fulfilled a, db') /\
      ((a = Json400InvalidUrl /\ db' = db) \/
       (a = Json500FailedToShorten /\ db' = db) \/
       exists code,
         a = Json200Shorten (BASE_URL h ++ str "/" ++ code) code))) /\
  (exists a,
     run (get_api_stats c) db = (Fulfilled a, db) /\
     (a = Json404NotFound \/
      exists r, In r db /\ short_code r = c /\ a = Json200Stats r)) /\
  (exists a db',
     run (get_shortCode h c) db = (Fulfilled a, db') /\
     ((a = Html404NotFound /\ db' = db) \/
      (exists T, a = Html410Expired T /\ db' = db) \/
      (exists r, In r db /\ short_code r = c /\
                 a = Redirect302 (original_url r) /\
                 db' = map (bump c) db))).
Proof.
  split; [|split].
  - assert (Hfalsy : truthy url = false ->
              (truthy url = false \/ exists s, url = JSString s) /\
              exists a db',
                run (post_api_shorten h url e) db = (Fulfilled a, db') /\
                ((a = Json400InvalidUrl /\ db' = db) \/
                 (a = Json500FailedToShorten /\ db' = db) \/
                 exists code,
                   a = Json200Shorten (BASE_URL h ++ str "/" ++ code) code)).
    { intros Hf. split; [now left|].
      exists Json400InvalidUrl, db. unfold post_api_shorten. rewrite Hf.
      split; [reflexivity | now left]. }
    assert (Hthrows : truthy url = true -> (forall s, url <> JSString s) ->
              post_api_shorten h url e = Reject TypeError).
    { intros Ht Hns. unfold post_api_shorten. rewrite Ht.
      destruct url; try reflexivity. now contradiction (Hns s). }
    destruct url as [| |b|n|s].
    + right. now apply Hfalsy.
    + right. now apply Hfalsy.
    + destruct b; [left | right; now apply Hfalsy].
      split; [reflexivity|]. split; [discriminate|].
      apply Hthrows; [reflexivity | discriminate].
    + destruct (truthy (JSNumber n)) eqn:Hn; [left | right; now apply Hfalsy].
      split; [reflexivity|]. split; [discriminate|].
      apply Hthrows; [reflexivity | discriminate].
    + right. split; [right; now exists s|].
      rewrite post_api_shorten_cases.
      destruct (trim s) as [|c' t] eqn:Ht.
      { exists Json400InvalidUrl, db. split; [reflexivity | now left]. }
      destruct (isValidUrl h (c' :: t)).
      2:{ exists Json400InvalidUrl, db. split; [reflexivity | now left]. }
      rewrite run_try_catch, run_bind, run_createShortUrl.
      destruct (filter (has_url (trim (c' :: t))) db) as [|r rest].
      * destruct (insert_accepted h (js_or e JSNull) db).
        -- eexists _, _. split; [reflexivity|]. right. right. now eexists.
        -- exists Json500FailedToShorten, db. split; [reflexivity|].
           right. now left.
      * eexists _, _. split; [reflexivity|]. right. right. now eexists.
  - rewrite run_get_api_stats.
    destruct (filter (has_code c) db) as [|row rest] eqn:Hsel.
    + exists Json404NotFound. split; [reflexivity | now left].
    + apply filter_head_in in Hsel as [Hin Hc]. apply has_code_eq in Hc.
      exists (Json200Stats row). split; [reflexivity|]. right. now exists row.
  - destruct (get_shortCode_outcomes h c db)
      as [H404 | [[r [T [Hin [Hc [HT [Hpast Hrun]]]]]] | [r [Hin [Hc [Hlive [Hov Hrun]]]]]]].
    + eexists _, _. split; [exact H404|]. now left.
    + eexists _, _. split; [exact Hrun|]. right. left. now exists T.
    + eexists _, _. split; [exact Hrun|]. right. right. now exists r.
Qed.

(* ================================================================== *)
(** ** Requests served in sequence *)

Lemma serve_all_cons (rq : request) (rest : list request) (db : table) :
  serve_all (rq :: rest) db =
  (fst (run (serve rq) db) :: fst (serve_all rest (snd (run (serve rq) db))),
   snd (serve_all rest (snd (run (serve rq) db)))).
Proof.
  cbn [serve_all]. destruct (run (serve rq) db) as [a db1]. cbn [fst snd].
  now destruct (serve_all rest db1).
Qed.

Lemma row_ok_new_row (h : Host) (u : jsstring) (e : jsval) :
  row_ok (new_row h u e) = true.
Proof.
  unfold row_ok. cbn [new_row original_url click_count].
  now rewrite trim_idempotent, str_eqb_refl.
Qed.

Lemma row_ok_bump (c : jsstring) (db : table) :
  existsb (overflows c) db = false ->
  forallb row_ok db = true -> forallb row_ok (map (bump c) db) = true.
Proof.
  induction db as [|r db IH]; simpl; [reflexivity|].
  intros Hov Hok. apply orb_false_iff in Hov as [Hr Hov].
  apply andb_true_iff in Hok as [Hrok Hok].
  rewrite IH by assumption. rewrite andb_true_r.
  unfold bump. unfold overflows in Hr.
  destruct (has_code c r); [|exact Hrok].
  simpl in Hr. apply Z.ltb_ge in Hr.
  unfold row_ok in *. cbn [clicked original_url click_count].
  apply andb_true_iff in Hrok as [Hrok _].
  apply andb_true_iff in Hrok as [Hurl Hpos]. apply Z.leb_le in Hpos.
  rewrite Hurl. simpl. apply andb_true_iff. split; apply Z.leb_le; lia.
Qed.

Lemma createShortUrl_well_formed (h : Host) (u : jsstring) (e : jsval)
    (db : table) :
  well_formed db -> well_formed (snd (run (createShortUrl h u e) db)).
Proof.
  intros [Hpk [Hd Hok]]. split; [|split].
  - now apply createShortUrl_primary_key.
  - now apply createShortUrl_dedup.
  - destruct (createShortUrl_table h u e db) as [-> | [-> _]]; [assumption|].
    rewrite forallb_app, Hok. simpl. now rewrite row_ok_new_row.
Qed.

Lemma serve_well_formed (rq : request) (db : table) :
  well_formed db -> well_formed (snd (run (serve rq) db)).
Proof.
  intros Hwf. destruct rq as [h url e | c | h c]; cbn [serve].
  - destruct (post_api_shorten_table h url e db) as [-> | [s ->]];
      [assumption | now apply createShortUrl_well_formed].
  - rewrite run_get_api_stats.
    now destruct (filter (has_code c) db).
  - destruct (get_shortCode_outcomes h c db)
      as [-> | [[r [T [_ [_ [_ [_ ->]]]]]] | [r [_ [_ [_ [Hov ->]]]]]]];
      try assumption.
    destruct Hwf as [Hpk [Hd Hok]]. cbn [snd]. split; [|split].
    + now rewrite primary_key_bump.
    + intros v. rewrite count_url_bump. apply Hd.
    + now apply row_ok_bump.
Qed.

Lemma serve_all_well_formed (rqs : list request) :
  forall db, well_formed db -> well_formed (snd (serve_all rqs db)).
Proof.
  induction rqs as [|rq rest IH]; intros db Hwf; [exact Hwf|].
  rewrite serve_all_cons. cbn [snd]. apply IH. now apply serve_well_formed.
Qed.

(** X5. Whatever requests are served one after the other from the empty
    table, the table keeps the primary key, holds at most one row per URL,
    and every row has a trimmed URL and a click count from 0 to the INT
    maximum. *)
Theorem served_tables_are_well_formed (rqs : list request) :
  primary_key (snd (serve_all rqs [])) = true /\
  (forall v, (count_url v (snd (serve_all rqs [])) <= 1)%nat) /\
  forallb row_ok (snd (serve_all rqs [])) = true.
Proof.
  apply (serve_all_well_formed rqs []).
  split; [reflexivity|]. split; [|reflexivity].
  intros v. apply Nat.le_0_l.
Qed.

Lemma later_state_of_refl (r : Row) : later_state_of r r.
Proof. unfold later_state_of. repeat split. lia. Qed.

Lemma later_state_of_trans (r r' r'' : Row) :
  later_state_of r r' -> later_state_of r' r'' -> later_state_of r r''.
Proof.
  unfold later_state_of.
  intros [H1 [H2 [H3 [H4 H5]]]] [K1 [K2 [K3 [K4 K5]]]].
  repeat split; try congruence. lia.
Qed.

Lemma later_state_of_bump (c : jsstring) (r : Row) :
  later_state_of r (bump c r).
Proof.
  unfold bump. destruct (has_code c r); [|apply later_state_of_refl].
  unfold later_state_of. simpl. repeat split. lia.
Qed.

Lemma serve_keeps_rows (rq : request) (db : table) (r : Row) :
  In r db ->
  exists r', In r' (snd (run (serve rq) db)) /\ later_state_of r r'.
Proof.
  intros Hin.
  assert (Hsame : exists r', In r' db /\ later_state_of r r')
    by (exists r; split; [assumption | apply later_state_of_refl]).
  assert (Hcreate : forall h u e,
            exists r', In r' (snd (run (createShortUrl h u e) db)) /\
                       later_state_of r r').
  { intros h u e. destruct (createShortUrl_table h u e db) as [-> | [-> _]];
      [exact Hsame|].
    exists r. split; [apply in_or_app; now left | apply later_state_of_refl]. }
  destruct rq as [h url e | c | h c]; cbn [serve].
  - destruct (post_api_shorten_table h url e db) as [-> | [s ->]];
      [exact Hsame | apply Hcreate].
  - rewrite run_get_api_stats. now destruct (filter (has_code c) db).
  - destruct (get_shortCode_outcomes h c db)
      as [-> | [[r0 [T [_ [_ [_ [_ ->]]]]]] | [r0 [_ [_ [_ [_ ->]]]]]]];
      try exact Hsame.
    exists (bump c r). split; [now apply in_map | apply later_state_of_bump].
Qed.

(** X6. Nothing is ever deleted or rewritten: a row of the table is still
    there after any sequence of requests, with the same code, URL, creation
    time and expiration, and with at least as many clicks. *)
Theorem rows_are_kept (rqs : list request) (db : table) (r : Row) :
  In r db ->
  exists r', In r' (snd (serve_all rqs db)) /\ later_state_of r r'.
Proof.
  revert db r. induction rqs as [|rq rest IH]; intros db r Hin.
  - exists r. split; [exact Hin | apply later_state_of_refl].
  - rewrite serve_all_cons. cbn [snd].
    destruct (serve_keeps_rows rq db r Hin) as [r1 [Hin1 Hl1]].
    destruct (IH _ r1 Hin1) as [r2 [Hin2 Hl2]].
    exists r2. split; [exact Hin2 | now apply (later_state_of_trans r r1 r2)].
Qed.

Lemma rows_are_kept_witness :
  exists r',
    In r' (snd (serve_all
                  [GET_shortCode (host 10 []) (str "abc");
                   POST_api_shorten (host 11 [str "xyz"])
                     (JSString (str "https://rocq-prover.org")) JSNull;
                   GET_shortCode (host 2000 []) (str "abc")]
                  [row_abc 0 (Some 1000)])) /\
    later_state_of (row_abc 0 (Some 1000)) r'.
Proof.
  apply (rows_are_kept
           [GET_shortCode (host 10 []) (str "abc");
            POST_api_shorten (host 11 [str "xyz"])
              (JSString (str "https://rocq-prover.org")) JSNull;
            GET_shortCode (host 2000 []) (str "abc")]
           [row_abc 0 (Some 1000)] (row_abc 0 (Some 1000))).
  simpl. now left.
Defined.

(* ================================================================== *)
(** ** Counting clicks *)

Lemma expired_at_live (h : Host) (r : Row) :
  expired_at h r = false ->
  match expires_at r with Some T => Date_now h <= T | None => True end.
Proof.
  unfold expired_at. destruct (expires_at r) as [T|]; [|trivial].
  rewrite Z.gtb_ltb. intros H. apply Z.ltb_ge in H. lia.
Qed.

Lemma in_bump_clicked (db : table) (r : Row) :
  In r db -> In (clicked r) (map (bump (short_code r)) db).
Proof.
  intros Hin. apply in_map_iff. exists r. split; [|assumption].
  unfold bump. now rewrite has_code_same.
Qed.

Lemma click_count_iter (n : nat) (r : Row) :
  click_count (Nat.iter n clicked r) = click_count r + Z.of_nat n.
Proof.
  induction n as [|n IH]; [simpl; lia|].
  rewrite Nat2Z.inj_succ. cbn [Nat.iter nat_rect clicked click_count].
  unfold Nat.iter in IH. rewrite IH. lia.
Qed.

(** X7. Resolving the code of a row several times in a row, at instants
    at which it has not expired and while the count stays within the INT
    column, redirects every time to the row's URL and adds exactly one
    click per resolution. *)
Theorem serial_resolutions_count_each_click
    (hs : list Host) (db : table) (r : Row) :
  primary_key db = true -> In r db ->
  forallb (fun h => negb (expired_at h r)) hs = true ->
  click_count r + Z.of_nat (List.length hs) <= INT_MAX ->
  fst (serve_all (map (fun h => GET_shortCode h (short_code r)) hs) db) =
    map (fun _ => Fulfilled (Redirect302 (original_url r))) hs /\
  run (getUrlStats (short_code r))
      (snd (serve_all (map (fun h => GET_shortCode h (short_code r)) hs) db)) =
    (Fulfilled (Nat.iter (List.length hs) clicked r),
     snd (serve_all (map (fun h => GET_shortCode h (short_code r)) hs) db)) /\
  click_count (Nat.iter (List.length hs) clicked r) =
    click_count r + Z.of_nat (List.length hs).
Proof.
  intros Hpk Hin Hlive Hroom.
  split; [|split; [|apply click_count_iter]].
  - revert db r Hpk Hin Hlive Hroom.
    induction hs as [|h hs IH]; intros db r Hpk Hin Hlive Hroom;
      [reflexivity|].
    cbn [map forallb List.length] in *.
    apply andb_true_iff in Hlive as [Hh Hlive]. apply negb_true_iff in Hh.
    rewrite Nat2Z.inj_succ in Hroom.
    rewrite serve_all_cons. cbn [serve fst].
    destruct (run_get_shortCode_live h db r Hpk Hin (expired_at_live h r Hh))
      as [_ [Hrun _]]; [lia|].
    rewrite Hrun. cbn [fst snd]. f_equal.
    apply (IH (map (bump (short_code r)) db) (clicked r)).
    + now rewrite primary_key_bump.
    + now apply in_bump_clicked.
    + exact Hlive.
    + cbn [clicked click_count]. lia.
  - revert db r Hpk Hin Hlive Hroom.
    induction hs as [|h hs IH]; intros db r Hpk Hin Hlive Hroom.
    + cbn [map serve_all snd List.length Nat.iter nat_rect].
      rewrite run_getUrlStats. now rewrite select_by_code_unique.
    + cbn [map forallb List.length] in *.
      apply andb_true_iff in Hlive as [Hh Hlive]. apply negb_true_iff in Hh.
      rewrite Nat2Z.inj_succ in Hroom.
      rewrite serve_all_cons. cbn [serve snd].
      destruct (run_get_shortCode_live h db r Hpk Hin (expired_at_live h r Hh))
        as [_ [Hrun _]]; [lia|].
      rewrite Hrun. cbn [snd]. rewrite Nat.iter_succ_r.
      apply (IH (map (bump (short_code r)) db) (clicked r)).
      * now rewrite primary_key_bump.
      * now apply in_bump_clicked.
      * exact Hlive.
      * cbn [clicked click_count]. lia.
Qed.

Lemma serial_resolutions_count_each_click_witness :
  fst (serve_all
         (map (fun h => GET_shortCode h (str "abc"))
            [host 10 []; host 20 []; host 1000 []])
         [row_abc 4 (Some 1000)]) =
    map (fun _ => Fulfilled (Redirect302 example_com))
      [host 10 []; host 20 []; host 1000 []] /\
  run (getUrlStats (str "abc"))
      (snd (serve_all
              (map (fun h => GET_shortCode h (str "abc"))
                 [host 10 []; host 20 []; host 1000 []])
              [row_abc 4 (Some 1000)])) =
    (Fulfilled (Nat.iter 3 clicked (row_abc 4 (Some 1000))),
     snd (serve_all
            (map (fun h => GET_shortCode h (str "abc"))
               [host 10 []; host 20 []; host 1000 []])
            [row_abc 4 (Some 1000)])) /\
  click_count (Nat.iter 3 clicked (row_abc 4 (Some 1000))) = 4 + 3.
Proof.
  apply (serial_resolutions_count_each_click
           [host 10 []; host 20 []; host 1000 []]
           [row_abc 4 (Some 1000)] (row_abc 4 (Some 1000))).
  - reflexivity.
  - simpl. now left.
  - reflexivity.
  - vm_compute. discriminate.
Defined.

(* ================================================================== *)
(** ** Two resolutions in flight *)

Lemma step_get_shortCode_live (h : Host) (db : table) (r : Row) :
  primary_key db = true -> In r db -> expired_at h r = false ->
  step (get_shortCode h (short_code r)) db =
  (redirect_pending (short_code r) (original_url r), db).
Proof.
  intros Hpk Hin Hlive.
  unfold get_shortCode, getUrlByShortCode, redirect_pending. simpl.
  rewrite select_by_code_unique by assumption. simpl.
  unfold expired_at in Hlive.
  destruct (expires_at r) as [T|]; [|reflexivity].
  now rewrite Hlive.
Qed.

Lemma step_redirect_pending (url : jsstring) (db : table) (r : Row) :
  primary_key db = true -> In r db -> click_count r < INT_MAX ->
  step (redirect_pending (short_code r) url) db =
  (Resolve (Redirect302 url), map (bump (short_code r)) db).
Proof.
  intros Hpk Hin Hroom. unfold redirect_pending, incrementClickCount. simpl.
  rewrite overflows_unique by assumption.
  assert (Hno : (INT_MAX <? click_count r + 1) = false)
    by (apply Z.ltb_ge; lia).
  now rewrite Hno.
Qed.

Lemma run_redirect_pending (url : jsstring) (db : table) (r : Row) :
  primary_key db = true -> In r db -> click_count r < INT_MAX ->
  run (redirect_pending (short_code r) url) db =
  (Fulfilled (Redirect302 url), map (bump (short_code r)) db).
Proof.
  intros Hpk Hin Hroom. unfold redirect_pending, incrementClickCount. simpl.
  rewrite overflows_unique by assumption.
  assert (Hno : (INT_MAX <? click_count r + 1) = false)
    by (apply Z.ltb_ge; lia).
  now rewrite Hno.
Qed.

Section Clicking.

Variables (h1 h2 : Host) (db0 : table) (r : Row).

Hypothesis key0 : primary_key db0 = true.
Hypothesis row0 : In r db0.
Hypothesis live1 : expired_at h1 r = false.
Hypothesis live2 : expired_at h2 r = false.
Hypothesis room : click_count r + 2 <= INT_MAX.

Let c := short_code r.
Let url := original_url r.
Let db1 := map (bump c) db0.

Lemma clicking_key1 : primary_key db1 = true.
Proof. unfold db1. now rewrite primary_key_bump. Qed.

Lemma clicking_row1 : In (clicked r) db1.
Proof. unfold db1, c. now apply in_bump_clicked. Qed.

Lemma clicking_look0 (h : Host) :
  expired_at h r = false ->
  step (get_shortCode h c) db0 = (redirect_pending c url, db0).
Proof. intros Hl. now apply step_get_shortCode_live. Qed.

Lemma clicking_look1 (h : Host) :
  expired_at h r = false ->
  step (get_shortCode h c) db1 = (redirect_pending c url, db1).
Proof.
  intros Hl.
  exact (step_get_shortCode_live h db1 (clicked r)
           clicking_key1 clicking_row1 Hl).
Qed.

Lemma clicking_count0 :
  step (redirect_pending c url) db0 = (Resolve (Redirect302 url), db1).
Proof. apply step_redirect_pending; try assumption. lia. Qed.

Lemma clicking_count1 :
  step (redirect_pending c url) db1 =
  (Resolve (Redirect302 url), map (bump c) db1).
Proof.
  apply (step_redirect_pending url db1 (clicked r)
           clicking_key1 clicking_row1).
  cbn [clicked click_count]. lia.
Qed.

Lemma clicking_run_look0 (h : Host) :
  expired_at h r = false ->
  run (get_shortCode h c) db0 = (Fulfilled (Redirect302 url), db1).
Proof.
  intros Hl.
  destruct (run_get_shortCode_live h db0 r key0 row0 (expired_at_live h r Hl))
    as [_ [Hrun _]]; [lia | exact Hrun].
Qed.

Lemma clicking_run_look1 (h : Host) :
  expired_at h r = false ->
  run (get_shortCode h c) db1 =
  (Fulfilled (Redirect302 url), map (bump c) db1).
Proof.
  intros Hl.
  destruct (run_get_shortCode_live h db1 (clicked r) clicking_key1
              clicking_row1 (expired_at_live h (clicked r) Hl))
    as [_ [Hrun _]]; [cbn [clicked click_count]; lia | exact Hrun].
Qed.

Lemma clicking_run_count0 :
  run (redirect_pending c url) db0 = (Fulfilled (Redirect302 url), db1).
Proof. apply run_redirect_pending; try assumption. lia. Qed.

Lemma clicking_run_count1 :
  run (redirect_pending c url) db1 =
  (Fulfilled (Redirect302 url), map (bump c) db1).
Proof.
  apply (run_redirect_pending url db1 (clicked r)
           clicking_key1 clicking_row1).
  cbn [clicked click_count]. lia.
Qed.

Lemma clicking_step_first (p q : async response) (db : table) :
  clicking h1 h2 c url db0 p q db ->
  clicking h1 h2 c url db0 (fst (step p db)) q (snd (step p db)).
Proof.
  intros H. inversion H; subst p q db; clear H; fold db1;
    try rewrite (clicking_look0 h1 live1);
    try rewrite (clicking_look1 h1 live1);
    try rewrite clicking_count0;
    try rewrite clicking_count1;
    cbn [fst snd step]; constructor.
Qed.

Lemma clicking_step_second (p q : async response) (db : table) :
  clicking h1 h2 c url db0 p q db ->
  clicking h1 h2 c url db0 p (fst (step q db)) (snd (step q db)).
Proof.
  intros H. inversion H; subst p q db; clear H; fold db1;
    try rewrite (clicking_look0 h2 live2);
    try rewrite (clicking_look1 h2 live2);
    try rewrite clicking_count0;
    try rewrite clicking_count1;
    cbn [fst snd step]; constructor.
Qed.

Lemma clicking_finish (p q : async response) (db : table) :
  clicking h1 h2 c url db0 p q db ->
  (let '(a, dbp) := run p db in
   let '(b, dbq) := run q dbp in (a, b, dbq)) =
  (Fulfilled (Redirect302 url), Fulfilled (Redirect302 url),
   map (bump c) db1).
Proof.
  intros H. inversion H; subst p q db; clear H; fold db1;
    try rewrite (clicking_run_look0 h1 live1);
    try rewrite (clicking_run_look1 h1 live1);
    try rewrite clicking_run_count0;
    try rewrite clicking_run_count1;
    cbn [run];
    try rewrite (clicking_run_look1 h2 live2);
    try rewrite clicking_run_count1;
    reflexivity.
Qed.

Lemma clicking_interleave (sched : list turn) :
  forall (p q : async response) (db : table),
    clicking h1 h2 c url db0 p q db ->
    interleave sched p q db =
    (Fulfilled (Redirect302 url), Fulfilled (Redirect302 url),
     map (bump c) db1).
Proof.
  induction sched as [|t sched IH]; intros p q db H.
  - cbn [interleave]. now apply clicking_finish.
  - destruct t; cbn [interleave].
    + pose proof (clicking_step_first p q db H) as Hs.
      destruct (step p db) as [p' db']. now apply IH.
    + pose proof (clicking_step_second p q db H) as Hs.
      destruct (step q db) as [q' db']. now apply IH.
Qed.

End Clicking.

(** X8. No click is lost: two GET /:shortCode requests for the code of a
    row that has not expired, in flight together, both redirect and leave
    the count raised by two, however the store's answers to their lookups
    and updates are ordered. *)
Theorem concurrent_resolutions_count_both_clicks
    (sched : list turn) (h1 h2 : Host) (db : table) (r : Row) :
  primary_key db = true -> In r db ->
  expired_at h1 r = false -> expired_at h2 r = false ->
  click_count r + 2 <= INT_MAX ->
  interleave sched
    (get_shortCode h1 (short_code r)) (get_shortCode h2 (short_code r)) db =
    (Fulfilled (Redirect302 (original_url r)),
     Fulfilled (Redirect302 (original_url r)),
     map (bump (short_code r)) (map (bump (short_code r)) db)) /\
  run (getUrlStats (short_code r))
      (map (bump (short_code r)) (map (bump (short_code r)) db)) =
    (Fulfilled (clicked (clicked r)),
     map (bump (short_code r)) (map (bump (short_code r)) db)).
Proof.
  intros Hpk Hin Hl1 Hl2 Hroom. split.
  - apply (clicking_interleave h1 h2 db r Hpk Hin Hl1 Hl2 Hroom sched).
    constructor.
  - rewrite run_getUrlStats.
    assert (Hpk1 : primary_key (map (bump (short_code r)) db) = true)
      by now rewrite primary_key_bump.
    pose proof (in_bump_clicked db r Hin) as Hin1.
    pose proof (select_after_bump _ (clicked r) Hpk1 Hin1) as Hsel.
    change (short_code (clicked r)) with (short_code r) in Hsel.
    now rewrite Hsel.
Qed.

Lemma concurrent_resolutions_count_both_clicks_witness :
  interleave [First; Second; Second; First]
    (get_shortCode (host 10 []) (str "abc"))
    (get_shortCode (host 20 []) (str "abc")) [row_abc 0 None] =
    (Fulfilled (Redirect302 example_com), Fulfilled (Redirect302 example_com),
     map (bump (str "abc")) (map (bump (str "abc")) [row_abc 0 None])) /\
  run (getUrlStats (str "abc"))
      (map (bump (str "abc")) (map (bump (str "abc")) [row_abc 0 None])) =
    (Fulfilled (clicked (clicked (row_abc 0 None))),
     map (bump (str "abc")) (map (bump (str "abc")) [row_abc 0 None])).
Proof.
  apply (concurrent_resolutions_count_both_clicks
           [First; Second; Second; First] (host 10 []) (host 20 [])
           [row_abc 0 None] (row_abc 0 None)).
  - reflexivity.
  - simpl. now left.
  - reflexivity.
  - reflexivity.
  - vm_compute. discriminate.
Defined.

(* ================================================================== *)
(** ** Edges of the service functions *)

(** X9. [incrementClickCount] for a code that no row has succeeds and
    leaves the table as it is; and whenever it succeeds the table keeps its
    length and every row with another code is untouched. *)
Theorem increment_touches_only_its_code (c : jsstring) (db : table) :
  (existsb (has_code c) db = false ->
   run (incrementClickCount c) db = (Fulfilled tt, db)) /\
  (forall db', run (incrementClickCount c) db = (Fulfilled tt, db') ->
     List.length db' = List.length db /\
     forall r, In r db -> short_code r <> c -> In r db').
Proof.
  split.
  - intros Hnone. rewrite run_incrementClickCount.
    now rewrite overflows_none, bump_other.
  - intros db'. rewrite run_incrementClickCount.
    destruct (existsb (overflows c) db); [discriminate|].
    intros Hrun. inversion Hrun; subst db'. split; [apply length_map|].
    intros r Hin Hne. apply in_map_iff. exists r. split; [|assumption].
    unfold bump. apply str_eqb_neq in Hne. unfold has_code. now rewrite Hne.
Qed.

Lemma increment_touches_only_its_code_witness :
  run (incrementClickCount (str "nope")) [row_abc 3 None] =
    (Fulfilled tt, [row_abc 3 None]) /\
  (List.length [row_abc 4 None; row_xyz 7] =
     List.length [row_abc 3 None; row_xyz 7] /\
   forall r, In r [row_abc 3 None; row_xyz 7] -> short_code r <> str "abc" ->
             In r [row_abc 4 None; row_xyz 7]).
Proof.
  split.
  - apply (proj1 (increment_touches_only_its_code (str "nope")
                    [row_abc 3 None])).
    reflexivity.
  - apply (proj2 (increment_touches_only_its_code (str "abc")
                    [row_abc 3 None; row_xyz 7])).
    reflexivity.
Defined.

(** X10. The lookup and the statistics read the same row: when the
    statistics find none the lookup throws not_found; when they return a row
    the lookup returns that very row unless the row's expiration lies before
    the current time, in which case it throws expired with that expiration.
    Neither changes the table. *)
Theorem lookup_agrees_with_stats (h : Host) (c : jsstring) (db : table) :
  (run (getUrlStats c) db = (Rejected ErrorNotFound, db) /\
   run (getUrlByShortCode h c) db = (Rejected NotFoundStatus, db)) \/
  (exists row,
     In row db /\ short_code row = c /\
     run (getUrlStats c) db = (Fulfilled row, db) /\
     ((expired_at h row = false /\
       run (getUrlByShortCode h c) db = (Fulfilled row, db)) \/
      (exists T, expires_at row = Some T /\ T < Date_now h /\
                 run (getUrlByShortCode h c) db =
                   (Rejected (ExpiredStatus T), db)))).
Proof.
  rewrite run_getUrlStats, run_getUrlByShortCode.
  destruct (filter (has_code c) db) as [|row rest] eqn:Hsel; [now left|].
  right. exists row.
  apply filter_head_in in Hsel as [Hin Hc]. apply has_code_eq in Hc.
  repeat split; try assumption. unfold expired_at.
  destruct (expires_at row) as [T|]; [|now left].
  destruct (Date_now h >? T) eqn:Hgt; [|now left].
  right. exists T. repeat split.
  rewrite Z.gtb_ltb in Hgt. now apply Z.ltb_lt.
Qed.

(** X11. What [trim] returns is the argument with a run of whitespace
    removed at each end, and it neither starts nor ends with a whitespace
    character. *)
Theorem trim_strips_both_ends (s : jsstring) :
  exists l r,
    s = l ++ trim s ++ r /\
    forallb isWhiteSpace l = true /\ forallb isWhiteSpace r = true /\
    match trim s with [] => True | c :: _ => isWhiteSpace c = false end /\
    match rev (trim s) with [] => True | c :: _ => isWhiteSpace c = false end.
Proof. exact (trim_decomposition s). Qed.

Lemma select_by_url_unique (u : jsstring) (db : table) (r : Row) :
  In r db -> original_url r = u -> (count_url u db <= 1)%nat ->
  filter (has_url u) db = [r].
Proof.
  intros Hin Hu Hone.
  assert (Hr : In r (filter (has_url u) db))
    by (apply filter_In; split; [assumption | now apply has_url_eq]).
  unfold count_url in Hone.
  destruct (filter (has_url u) db) as [|x [|y rest]]; simpl in *.
  - contradiction.
  - destruct Hr as [-> | []]. reflexivity.
  - lia.
Qed.

Lemma post_200_row (h : Host) (url : jsstring) (e : jsval) (db db' : table)
    (su c : jsstring) :
  run (post_api_shorten h (JSString url) e) db = (Fulfilled (Json200Shorten su c), db') ->
  su = BASE_URL h ++ str "/" ++ c /\
  snd (run (createShortUrl h url (js_or e JSNull)) db) = db' /\
  exists r, In r db' /\ short_code r = c /\ original_url r = trim url.
Proof.
  rewrite post_api_shorten_cases.
  destruct (trim url) as [|c' t] eqn:Ht; [discriminate|].
  destruct (isValidUrl h (c' :: t)); [|discriminate].
  rewrite <- Ht, run_try_catch, run_bind, run_createShortUrl_trimmed.
  rewrite run_createShortUrl.
  destruct (filter (has_url (trim url)) db) as [|r rest] eqn:Hsel.
  - destruct (insert_accepted h (js_or e JSNull) db); [|discriminate].
    cbn [run fst snd]. intros H. inversion H; subst. repeat split.
    exists (new_row h url (js_or e JSNull)).
    split; [apply in_or_app; right; now left | now split].
  - cbn [run fst snd]. intros H. inversion H; subst. repeat split.
    apply filter_head_in in Hsel as [Hin Hu]. apply has_url_eq in Hu.
    now exists r.
Qed.

(** X12. Every code that POST /api/shorten hands out is listed by
    GET /api/debug/urls next to the trimmed URL, and the text that
    GET /api/qr encodes for that code is the short_url of the answer. *)
Theorem issued_code_is_listed_and_encoded
    (h : Host) (url : jsstring) (e : jsval) (db db' : table)
    (su c : jsstring) :
  run (post_api_shorten h (JSString url) e) db = (Fulfilled (Json200Shorten su c), db') ->
  In (c, trim url) (get_api_debug_urls db') /\ get_api_qr h c = su.
Proof.
  intros Hrun.
  destruct (post_200_row h url e db db' su c Hrun)
    as [Hsu [_ [r [Hin [Hc Hu]]]]].
  split; [|now rewrite Hsu].
  unfold get_api_debug_urls. apply in_map_iff. exists r.
  split; [now rewrite Hc, Hu | exact Hin].
Qed.

Lemma issued_code_is_listed_and_encoded_witness :
  In (str "abc", trim (str " https://example.com "))
     (get_api_debug_urls [row_abc 0 None]) /\
  get_api_qr (host 0 [str "abc"]) (str "abc") =
    str "http://localhost:5000/abc".
Proof.
  apply (issued_code_is_listed_and_encoded (host 0 [str "abc"])
           (str " https://example.com ") JSNull [] [row_abc 0 None]
           (str "http://localhost:5000/abc") (str "abc")).
  reflexivity.
Defined.

(** X13. Create, then ask: under the primary key, the statistics of a
    code that POST /api/shorten has just handed out return a row with that
    code whose URL is the trimmed URL of the request. *)
Theorem stats_after_post
    (h : Host) (url : jsstring) (e : jsval) (db db' : table)
    (su c : jsstring) :
  primary_key db = true ->
  run (post_api_shorten h (JSString url) e) db = (Fulfilled (Json200Shorten su c), db') ->
  exists r,
    run (get_api_stats c) db' = (Fulfilled (Json200Stats r), db') /\
    short_code r = c /\ original_url r = trim url.
Proof.
  intros Hpk Hrun.
  destruct (post_200_row h url e db db' su c Hrun)
    as [_ [Hdb [r [Hin [Hc Hu]]]]].
  assert (Hpk' : primary_key db' = true)
    by (rewrite <- Hdb; now apply createShortUrl_primary_key).
  exists r. rewrite run_get_api_stats, <- Hc.
  rewrite select_by_code_unique by assumption. now repeat split.
Qed.

Lemma stats_after_post_witness :
  exists r,
    run (get_api_stats (str "abc")) [row_abc 5 (Some 1000)] =
      (Fulfilled (Json200Stats r), [row_abc 5 (Some 1000)]) /\
    short_code r = str "abc" /\ original_url r = trim example_com.
Proof.
  apply (stats_after_post (host 2000 [str "xyz"]) example_com JSNull
           [row_abc 5 (Some 1000)] [row_abc 5 (Some 1000)]
           (str "http://localhost:5000/abc") (str "abc")).
  - reflexivity.
  - reflexivity.
Defined.

(** X14. At the INT maximum the click cannot be counted: the lookup still
    returns the row, the UPDATE is rejected with an arithmetic overflow, and
    GET /:shortCode, whose handler turns every error other than expired
    into the Not Found page, answers 404 on an unchanged table. *)
Theorem resolution_at_the_int_maximum (h : Host) (db : table) (r : Row) :
  primary_key db = true -> In r db -> expired_at h r = false ->
  click_count r = INT_MAX ->
  run (getUrlByShortCode h (short_code r)) db = (Fulfilled r, db) /\
  run (incrementClickCount (short_code r)) db =
    (Rejected (StoreError ArithmeticOverflow), db) /\
  run (get_shortCode h (short_code r)) db = (Fulfilled Html404NotFound, db).
Proof.
  intros Hpk Hin Hlive Hmax.
  rewrite run_getUrlByShortCode, run_incrementClickCount, run_get_shortCode.
  rewrite select_by_code_unique, overflows_unique by assumption.
  rewrite Hmax. unfold expired_at in Hlive.
  destruct (expires_at r) as [T|]; [rewrite Hlive|]; now repeat split.
Qed.

Lemma resolution_at_the_int_maximum_witness :
  run (getUrlByShortCode (host 5 []) (str "abc")) [row_abc INT_MAX None] =
    (Fulfilled (row_abc INT_MAX None), [row_abc INT_MAX None]) /\
  run (incrementClickCount (str "abc")) [row_abc INT_MAX None] =
    (Rejected (StoreError ArithmeticOverflow), [row_abc INT_MAX None]) /\
  run (get_shortCode (host 5 []) (str "abc")) [row_abc INT_MAX None] =
    (Fulfilled Html404NotFound, [row_abc INT_MAX None]).
Proof.
  apply (resolution_at_the_int_maximum (host 5 []) [row_abc INT_MAX None]
           (row_abc INT_MAX None)).
  - reflexivity.
  - simpl. now left.
  - reflexivity.
  - reflexivity.
Defined.

(** X15. An expired URL cannot be renewed: when the only row for the
    trimmed URL has expired, [createShortUrl] with any new expiration
    returns that row's code and changes nothing, and the code keeps being
    answered 410 with the old expiration. *)
Theorem expired_url_cannot_be_renewed
    (h h' : Host) (u : jsstring) (e : jsval) (db : table) (r : Row) (T : Z) :
  primary_key db = true -> In r db ->
  original_url r = trim u -> (count_url (trim u) db <= 1)%nat ->
  expires_at r = Some T -> T < Date_now h' ->
  run (createShortUrl h u e) db = (Fulfilled (short_code r), db) /\
  run (get_shortCode h' (short_code r)) db =
    (Fulfilled (Html410Expired T), db).
Proof.
  intros Hpk Hin Hu Hone HT Hpast. split.
  - rewrite run_createShortUrl.
    now rewrite (select_by_url_unique (trim u) db r Hin Hu Hone).
  - now apply run_get_shortCode_expired.
Qed.

Lemma expired_url_cannot_be_renewed_witness :
  run (createShortUrl (host 2000 [str "xyz"]) (str " https://example.com ")
         (JSString the_end_of_2025)) [row_abc 5 (Some 1000)] =
    (Fulfilled (str "abc"), [row_abc 5 (Some 1000)]) /\
  run (get_shortCode (host 2001 []) (str "abc")) [row_abc 5 (Some 1000)] =
    (Fulfilled (Html410Expired 1000), [row_abc 5 (Some 1000)]).
Proof.
  apply (expired_url_cannot_be_renewed (host 2000 [str "xyz"]) (host 2001 [])
           (str " https://example.com ") (JSString the_end_of_2025)
           [row_abc 5 (Some 1000)] (row_abc 5 (Some 1000)) 1000).
  - reflexivity.
  - simpl. now left.
  - reflexivity.
  - vm_compute. lia.
  - reflexivity.
  - reflexivity.
Defined.

Lemma createShortUrl_returns_row (h : Host) (u : jsstring) (e : jsval)
    (db db' : table) (c : jsstring) :
  run (createShortUrl h u e) db = (Fulfilled c, db') ->
  (forall r, In r db -> In r db') /\
  exists r, In r db' /\ short_code r = c /\ original_url r = trim u.
Proof.
  rewrite run_createShortUrl.
  destruct (filter (has_url (trim u)) db) as [|r rest] eqn:Hsel.
  - destruct (insert_accepted h e db); [|discriminate].
    intros H. inversion H; subst. split.
    + intros r Hin. apply in_or_app. now left.
    + exists (new_row h u e).
      split; [apply in_or_app; right; now left | now split].
  - intros H. inversion H; subst. split; [trivial|].
    apply filter_head_in in Hsel as [Hin Hu]. apply has_url_eq in Hu.
    now exists r.
Qed.

(** X16. Different URLs never share a code: under the primary key, two
    calls of [createShortUrl], one after the other, whose trimmed URLs
    differ return different codes, be the rows new or already there. *)
Theorem different_urls_get_different_codes
    (h1 h2 : Host) (u1 u2 : jsstring) (e1 e2 : jsval)
    (db db1 db2 : table) (c1 c2 : jsstring) :
  primary_key db = true ->
  trim u1 <> trim u2 ->
  run (createShortUrl h1 u1 e1) db = (Fulfilled c1, db1) ->
  run (createShortUrl h2 u2 e2) db1 = (Fulfilled c2, db2) ->
  c1 <> c2.
Proof.
  intros Hpk Hdiff Hrun1 Hrun2 Heq.
  assert (Hpk2 : primary_key db2 = true).
  { replace db2 with (snd (run (createShortUrl h2 u2 e2) db1))
      by now rewrite Hrun2.
    apply createShortUrl_primary_key.
    replace db1 with (snd (run (createShortUrl h1 u1 e1) db))
      by now rewrite Hrun1.
    now apply createShortUrl_primary_key. }
  destruct (createShortUrl_returns_row h1 u1 e1 db db1 c1 Hrun1)
    as [_ [r1 [Hin1 [Hc1 Hu1]]]].
  destruct (createShortUrl_returns_row h2 u2 e2 db1 db2 c2 Hrun2)
    as [Hkeep [r2 [Hin2 [Hc2 Hu2]]]].
  apply Hkeep in Hin1.
  pose proof (select_by_code_unique db2 r1 Hpk2 Hin1) as Hs1.
  pose proof (select_by_code_unique db2 r2 Hpk2 Hin2) as Hs2.
  rewrite Hc1, Heq in Hs1. rewrite Hc2 in Hs2.
  rewrite Hs1 in Hs2. inversion Hs2; subst r2. congruence.
Qed.

Lemma different_urls_get_different_codes_witness :
  str "abc" <> str "xyz".
Proof.
  apply (different_urls_get_different_codes
           (host 1 [str "nnn"]) (host 3 [str "xyz"])
           example_com (str "https://rocq-prover.org") JSNull JSNull
           [row_abc 0 None] [row_abc 0 None]
           [row_abc 0 None;
            {| short_code := str "xyz";
               original_url := str "https://rocq-prover.org";
               click_count := 0; created_at := 3; expires_at := None |}]
           (str "abc") (str "xyz")).
  - reflexivity.
  - vm_compute. discriminate.
  - reflexivity.
  - reflexivity.
Defined.
